(** * keadm debug get: a shallow embedding of [get.go]

    The development follows
    [keadm/cmd/keadm/app/cmd/debug/get.go]: the resource-alias table and
    option validation, record retrieval from the edge database with the
    pod/node status merge, the label-selector parser and filter, the two
    typed reconstruction passes and the json/yaml printing path.

    Conventions.
    - A Go function returning [(T, error)] returns [outcome T]; a run-time
      panic (failed type assertion, write to a nil map) is the third
      constructor [Panic].
    - A Go [map[string]interface{}] variable is [gomap]: either the nil map
      or a [gmap string json].  The nil interface value is [JNull].
    - A JSON text (the [Value] column, the result of [json.Marshal]) is a
      [text]: the document it denotes, or [Malformed s] for a string that
      [encoding/json] rejects.  Texts are thus identified up to white space
      and to the order of object members.
    - Loops over slices are structural recursions carrying the variables the
      loop body reads and writes.
    - The progress lines that [fmt.Printf] writes to standard output are
      left out. *)

From Stdlib Require Import Ascii String.
From stdpp Require Import base option list strings gmap fin_maps.

Open Scope string_scope.
Open Scope list_scope.

(** ** Outcomes *)

Inductive error :=
  | ErrNoResourceType
  | ErrUnrecognizedResourceType (rsT : string)
  | ErrDatabaseFileNotExist (path : string)
  | ErrInitDB
  | ErrInvalidOutputFormat (format : string)
  | ErrOnlyOneResource
  | ErrQueryFailed (resType ns : string)
  | ErrParsingUnrecognizedType (t : string)
  | ErrSelector (op : string)
  | ErrUnmarshal
  | ErrStore (msg : string).

Inductive outcome (A : Type) :=
  | OK (a : A)
  | Err (e : error)
  | Panic (msg : string).
Arguments OK {A} a.
Arguments Err {A} e.
Arguments Panic {A} msg.

(** Sequencing: the first error or panic ends the call.  With these
    instances [x ← e; k] is stdpp's notation for it. *)
#[global] Instance outcome_bind : MBind outcome := λ A B f x,
  match x with
  | OK a => f a
  | Err e => Err e
  | Panic msg => Panic msg
  end.

#[global] Instance outcome_ret : MRet outcome := λ A a, OK a.

Definition is_Panic {A} (x : outcome A) : bool :=
  match x with Panic _ => true | _ => false end.

(** ** The functions of package [strings] that [get.go] calls *)

Module strings.

(** [strings.HasPrefix] *)
Definition HasPrefix (s pre : string) : bool := String.prefix pre s.

(** [strings.Contains(s, substr)], also [strings.Index(s, substr) != -1] *)
Fixpoint Contains (s substr : string) : bool :=
  HasPrefix s substr ||
  match s with
  | EmptyString => false
  | String _ s' => Contains s' substr
  end.

(** [strings.Split(s, sep)] for a non-empty [sep]: the substrings between
    the successive, non-overlapping occurrences of [sep], scanning from the
    left.  [skip] counts the bytes of a matched separator still to be
    passed over and [cur] is the piece under construction. *)
Fixpoint split_from (sep s : string) (skip : nat) (cur : string) : list string :=
  match s with
  | EmptyString => [cur]
  | String c s' =>
      match skip with
      | S k => split_from sep s' k cur
      | O =>
          if HasPrefix s sep
          then cur :: split_from sep s' (String.length sep - 1) ""
          else split_from sep s' 0 (cur +:+ String c "")
      end
  end.

Definition Split (s sep : string) : list string := split_from sep s 0 "".

(** [strings.Replace(s, old, new, 1)]: the first occurrence of [old] is
    replaced; [s] is returned unchanged when there is none. *)
Fixpoint drop (n : nat) (s : string) : string :=
  match n, s with
  | S k, String _ s' => drop k s'
  | _, _ => s
  end.

Fixpoint Replace1 (s old new : string) : string :=
  if HasPrefix s old then new +:+ drop (String.length old) s
  else match s with
       | EmptyString => ""
       | String c s' => String c (Replace1 s' old new)
       end.


(** [strings.ToLower] on the ASCII letters. *)
Definition lower_ascii (c : ascii) : ascii :=
  let n := Ascii.nat_of_ascii c in
  if (65 <=? n)%nat && (n <=? 90)%nat then Ascii.ascii_of_nat (n + 32) else c.

Fixpoint ToLower (s : string) : string :=
  match s with
  | EmptyString => ""
  | String c s' => String (lower_ascii c) (ToLower s')
  end.


End strings.

(** ** JSON documents and [encoding/json] *)

#[local] Set Warnings "-register-all".
Inductive json :=
  | JNull
  | JBool (b : bool)
  | JNumber (literal : string)
  | JString (s : string)
  | JArray (items : list json)
  | JObject (members : list (string * json)).

Inductive text :=
  | Malformed (s : string)
  | Doc (j : json).

(** A Go [map[string]interface{}]: [None] is the nil map. *)
Definition gomap : Type := option (gmap string json).

(** [make(map[string]interface{})] *)
Definition make_map : gomap := Some ∅.

(** [m[k]] as an expression: the nil interface when [k] is not in the map. *)
Definition index (m : gomap) (k : string) : json :=
  match m with
  | Some g => default JNull (g !! k)
  | None => JNull
  end.

(** [m[k] = v]: a write to the nil map panics. *)
Definition assign (m : gomap) (k : string) (v : json) : outcome gomap :=
  match m with
  | Some g => OK (Some (<[k := v]> g))
  | None => Panic "assignment to entry in nil map"
  end.

(** The members of a JSON object stored one after the other into a map: a
    later member overwrites an earlier one with the same name, and the
    entries that the map held before are kept. *)
Definition store_members (members : list (string * json)) (g : gmap string json)
  : gmap string json :=
  foldl (λ acc kv, <[kv.1 := kv.2]> acc) g members.

(** The value of an object decoded into [interface{}]: a fresh map. *)
Definition object_map (members : list (string * json)) : gmap string json :=
  store_members members ∅.

(** [json.Unmarshal(data, &m)] for [m] of type [map[string]interface{}]:
    an object is stored into the existing map (a nil map is allocated
    first), [null] sets the map to nil, and every other value, like a text
    that is not JSON, is an error that leaves the map as it was. *)
Definition Unmarshal_map (data : text) (m : gomap) : outcome gomap :=
  match data with
  | Doc (JObject members) => OK (Some (store_members members (default ∅ m)))
  | Doc JNull => OK None
  | _ => Err ErrUnmarshal
  end.

(** [json.Marshal(m)] for such a map: the members are those of the map. *)
Definition Marshal_map (m : gomap) : text :=
  match m with
  | Some g => Doc (JObject (map_to_list g))
  | None => Doc JNull
  end.

(** [x.(map[string]interface{})] followed by an index expression. *)
Definition assert_map (x : json) : outcome gomap :=
  match x with
  | JObject members => OK (Some (object_map members))
  | _ => Panic "interface conversion: interface {} is not map[string]interface {}"
  end.

(** [x == s] and [x != s] for an [interface{}] value [x] and a string [s]:
    equal when the dynamic value of [x] is that string. *)
Definition iface_eq_string (x : json) (s : string) : bool :=
  match x with
  | JString t => bool_decide (t = s)
  | _ => false
  end.

(** [x == nil] for an [interface{}] value. *)
Definition is_nil (x : json) : bool :=
  match x with JNull => true | _ => false end.

(** ** Records of the meta table *)

Record Meta := mkMeta { Key : string; Type_ : string; Value : text }.

(** ** Constants *)

Definition ResourceTypeAll := "all".
Definition ResourceTypePod := "pod".
Definition ResourceTypeService := "service".
Definition ResourceTypeSecret := "secret".
Definition ResourceTypeConfigmap := "configmap".
Definition ResourceTypeEndpoints := "endpoints".

Definition OutputFormatWIDE := "wide".
Definition OutputFormatJSON := "json".
Definition OutputFormatYAML := "yaml".

(** Constants of the packages [model] (beehive) and [constants]
    (kubeedge/common) that [get.go] refers to. *)
Module model.
Definition ResourceTypePod := "pod".
Definition ResourceTypeNode := "node".
Definition ResourceTypeConfigmap := "configmap".
Definition ResourceTypeSecret := "secret".
Definition ResourceTypePodStatus := "podstatus".
Definition ResourceTypeNodeStatus := "nodestatus".
Definition QueryOperation := "query".
End model.

Module constants.
Definition ResourceSep := "/".
Definition ResourceTypeService := "service".
Definition ResourceTypeEndpoints := "endpoints".
End constants.

Definition allowedFormats : list string :=
  [OutputFormatYAML; OutputFormatJSON; OutputFormatWIDE].

Definition availableResources : gmap string string :=
  list_to_map
    [ ("all", "'pod','service','secret','configmap','endpoints'");
      ("po", "'pod'");
      ("pod", "'pod'");
      ("pods", "'pod'");
      ("svc", "'service'");
      ("service", "'service'");
      ("services", "'service'");
      ("secret", "'secret'");
      ("secrets", "'secret'");
      ("cm", "'configmap'");
      ("configmap", "'configmap'");
      ("configmaps", "'configmap'");
      ("ep", "'endpoints'");
      ("endpoint", "'endpoints'");
      ("endpoints", "'endpoints'") ].

(** [IsAllowedFormat] *)
Definition IsAllowedFormat (oFormat : string) : bool :=
  existsb (λ aFormat, bool_decide (oFormat = aFormat)) allowedFormats.

(** [IsAvailableResources] *)
Definition IsAvailableResources (rsT : string) : bool :=
  bool_decide (is_Some (availableResources !! rsT)).

(** [IsExistName] *)
Definition IsExistName (resNames : list string) (name : string) : bool :=
  foldl (λ value v, if strings.Contains name v then true else value) false resNames.

(** ** The selector parser *)

Record Selector := mkSelector { SKey : string; SValue : string; Exist : bool }.

(** The body of the loop of [SplitSelectorParameters] for one [label]:
    [results] and the variable [sel], declared outside the loop, go in and
    come out. *)
Definition split_label (label : string) (st : list Selector * Selector)
  : outcome (list Selector * Selector) :=
  let '(results, sel) := st in
  if strings.Contains label "==" then
    let labs := strings.Split label "==" in
    match labs with
    | [k; v] =>
        let sel := mkSelector k v true in
        OK (results ++ [sel], sel)
    | _ => Err (ErrSelector "==")
    end
  else if strings.Contains label "!=" then
    let labs := strings.Split label "!=" in
    match labs with
    | [k; v] =>
        let sel := mkSelector k v false in
        OK (results ++ [sel], sel)
    | _ => Err (ErrSelector "!=")
    end
  else if strings.Contains label "=" then
    let labs := strings.Split label "=" in
    match labs with
    | [k; v] =>
        let sel := mkSelector k v true in
        OK (results ++ [sel], sel)
    | _ => Err (ErrSelector "=")
    end
  else OK (results, sel).

Fixpoint split_labels (labels : list string) (st : list Selector * Selector)
  : outcome (list Selector * Selector) :=
  match labels with
  | [] => OK st
  | label :: rest => st' ← split_label label st; split_labels rest st'
  end.

(** The loop started with the empty [results] and the zero [sel]. *)
Definition parse_labels (labels : list string) : outcome (list Selector) :=
  st ← split_labels labels ([], mkSelector "" "" false);
  OK st.1.

(** [SplitSelectorParameters] *)
Definition SplitSelectorParameters (args : string) : outcome (list Selector) :=
  let labels := strings.Split args "," in
  parse_labels labels.

(** The parser as the specification words it: a term is classified by the
    first operator, in the order [==], [!=], [=], that it contains, and a
    term with an operator gives one clause when it splits on that operator
    into two sides. *)
Definition first_operator (term : string) : option (string * bool) :=
  if strings.Contains term "==" then Some ("==", true)
  else if strings.Contains term "!=" then Some ("!=", false)
  else if strings.Contains term "=" then Some ("=", true)
  else None.

Definition term_clause (term : string) : outcome (option Selector) :=
  match first_operator term with
  | None => OK None
  | Some (op, must_exist) =>
      match strings.Split term op with
      | [k; v] => OK (Some (mkSelector k v must_exist))
      | _ => Err (ErrSelector op)
      end
  end.

Fixpoint clauses_of (terms : list string) : outcome (list Selector) :=
  match terms with
  | [] => OK []
  | term :: rest =>
      c ← term_clause term;
      cs ← clauses_of rest;
      OK (option_list c ++ cs)
  end.

(** ** The selector filter *)

(** The loop over the clauses in [FilterSelector].  [&&] evaluates its
    right operand, and with it the type assertion on [vLabel], only when
    [flag] still holds. *)
Fixpoint match_labels (vLabel : json) (sLabels : list Selector) (flag : bool)
  : outcome bool :=
  match sLabels with
  | [] => OK flag
  | sl :: rest =>
      if flag then
        labels ← assert_map vLabel;
        if negb (Exist sl)
        then match_labels vLabel rest
               (negb (iface_eq_string (index labels (SKey sl)) (SValue sl)))
        else match_labels vLabel rest
               (iface_eq_string (index labels (SKey sl)) (SValue sl))
      else match_labels vLabel rest false
  end.

(** The loop over [data]; [jsonValue] is the map made before the loop. *)
Fixpoint filter_loop (sLabels : list Selector) (data : list Meta)
    (jsonValue : gomap) (results : list Meta) : outcome (list Meta) :=
  match data with
  | [] => OK results
  | v :: rest =>
      jsonValue ← Unmarshal_map (Value v) jsonValue;
      metadata ← assert_map (index jsonValue "metadata");
      let vLabel := index metadata "labels" in
      if is_nil vLabel then filter_loop sLabels rest jsonValue (results ++ [v])
      else
        flag ← match_labels vLabel sLabels true;
        if flag : bool then filter_loop sLabels rest jsonValue (results ++ [v])
        else filter_loop sLabels rest jsonValue results
  end.

(** [FilterSelector] *)
Definition FilterSelector (data : list Meta) (selector : string)
  : outcome (list Meta) :=
  sLabels ← SplitSelectorParameters selector;
  filter_loop sLabels data make_map [].

(** *** The filter as the specification words it *)

(** The label map of a record: that of the [labels] member of the
    [metadata] member of its document, when there is one. *)
Definition record_labels (r : Meta) : option (gmap string json) :=
  match Value r with
  | Doc (JObject members) =>
      match object_map members !! "metadata" with
      | Some (JObject metadata) =>
          match object_map metadata !! "labels" with
          | Some (JObject labels) => Some (object_map labels)
          | _ => None
          end
      | _ => None
      end
  | _ => None
  end.

(** A clause against a label map: [K==V] wants the label [K] to be there
    with the value [V], [K!=V] wants anything else. *)
Definition clause_holds (labels : gmap string json) (c : Selector) : Prop :=
  if Exist c then labels !! SKey c = Some (JString (SValue c))
  else labels !! SKey c ≠ Some (JString (SValue c)).

(** The records that the specification keeps. *)
Definition selected (clauses : list Selector) (r : Meta) : Prop :=
  match record_labels r with
  | None => True
  | Some labels => Forall (clause_holds labels) clauses
  end.

#[global] Instance label_value_dec (labels : gmap string json) k v :
  Decision (labels !! k = Some (JString v)).
Proof.
  destruct (labels !! k) as [[| | |s| |]|]; try (right; congruence).
  destruct (decide (s = v)) as [->|]; [by left|right; congruence].
Defined.

#[global] Instance clause_holds_dec labels c : Decision (clause_holds labels c).
Proof. unfold clause_holds. destruct (Exist c); apply _. Defined.

#[global] Instance selected_dec clauses r : Decision (selected clauses r).
Proof. unfold selected. destruct (record_labels r); apply _. Defined.

(** The documents that have a place for a label map: an object whose
    [metadata] member is an object, with a [labels] member that is absent,
    [null] or an object. *)
Definition labels_well_formed (r : Meta) : Prop :=
  ∃ members metadata,
    Value r = Doc (JObject members) ∧
    object_map members !! "metadata" = Some (JObject metadata) ∧
    (object_map metadata !! "labels" = None ∨
     object_map metadata !! "labels" = Some JNull ∨
     ∃ labels, object_map metadata !! "labels" = Some (JObject labels)).

(** ** Options *)

(** Of [PrintFlags], [get.go] reads and writes [OutputFormat]; the
    field [PrintFlags] of [GetOptions] is [Flags] here. *)
Record PrintFlags := mkPrintFlags { OutputFormat : string }.

Record GetOptions := mkGetOptions {
  AllNamespace : bool;
  Namespace : string;
  LabelSelector : string;
  DataPath : string;
  Flags : PrintFlags
}.

Module edgecoreCfg.
Definition DataBaseDriverName := "sqlite3".
Definition DataBaseAliasName := "default".
Definition DataBaseDataSource := "/var/lib/kubeedge/edgecore.db".
End edgecoreCfg.

(** [NewGetOptions], with no output format chosen. *)
Definition NewGetOptions : GetOptions :=
  {| AllNamespace := false;
     Namespace := "default";
     LabelSelector := "";
     DataPath := edgecoreCfg.DataBaseDataSource;
     Flags := mkPrintFlags "" |}.

(** ** Record retrieval

    The [dao] package, [util.ParseResourceEdge], the file system and the
    database driver are outside [get.go]; the section takes them as they
    are used there.  [Row] is the element type of the slice behind the
    pointer that [dao.QueryMeta] returns and [Row_json] the JSON value that
    [encoding/json] writes for one element. *)

Section Retrieval.

Context {Row : Type}.
Variable Row_json : Row → json.
Variable QueryAllMeta : string → string → outcome (list Meta).
Variable QueryMeta : string → string → outcome (list Row).
Variable ParseResourceEdge :
  string → string → string * string * string * option error.
Variable IsFileExist : string → bool.
Variable InitDB : string → string → string → outcome ().

(** [json.Marshal] of a non-empty slice: a JSON array, one value for each
    element. *)
Definition Marshal_slice (rows : list Row) : text :=
  Doc (JArray (Row_json <$> rows)).

(** [Validate].  The lower-cased format is stored back into the options,
    which are returned. *)
Definition Validate (g : GetOptions) (args : list string) : outcome GetOptions :=
  match args with
  | [] => Err ErrNoResourceType
  | arg0 :: _ =>
      if negb (IsAvailableResources arg0)
      then Err (ErrUnrecognizedResourceType arg0)
      else if negb (IsFileExist (DataPath g))
      then Err (ErrDatabaseFileNotExist (DataPath g))
      else
        _ ← InitDB edgecoreCfg.DataBaseDriverName edgecoreCfg.DataBaseAliasName
              (DataPath g);
        g ← (if (0 <? String.length (OutputFormat (Flags g)))%nat then
                let format := strings.ToLower (OutputFormat (Flags g)) in
                let g := mkGetOptions (AllNamespace g) (Namespace g)
                           (LabelSelector g) (DataPath g) (mkPrintFlags format) in
                if negb (IsAllowedFormat format)
                then Err (ErrInvalidOutputFormat format)
                else OK g
              else OK g);
        if bool_decide (arg0 = ResourceTypeAll) && (2 <=? length args)%nat
        then Err ErrOnlyOneResource
        else OK g
  end.

(** The two tests at the head of each retrieval loop; [true] means
    [continue]. *)
Definition skip_namespace (g : GetOptions) (resNS : string) (v : Meta) : bool :=
  let '(namespaceParsed, _, _, _) :=
    ParseResourceEdge (Key v) model.QueryOperation in
  bool_decide (namespaceParsed ≠ resNS) && negb (AllNamespace g).

Definition skip_name (resNames : list string) (v : Meta) : bool :=
  (0 <? length resNames)%nat && negb (IsExistName resNames (Key v)).

(** The loop of [getPodsFromDatabase] and of [getNodeFromDatabase], which
    differ in the two type constants only.  [baseJSON] and [statusJSON] are
    the two maps made before the loop ([podJSON] and [podStatusJSON], or
    [nodeJSON] and [nodeStatusJSON]). *)
Fixpoint status_loop (g : GetOptions) (resNS : string) (resNames : list string)
    (resType statusType : string) (records : list Meta)
    (baseJSON statusJSON : gomap) (results : list Meta) : outcome (list Meta) :=
  match records with
  | [] => OK results
  | v :: rest =>
      if skip_namespace g resNS v
      then status_loop g resNS resNames resType statusType rest
             baseJSON statusJSON results
      else if skip_name resNames v
      then status_loop g resNS resNames resType statusType rest
             baseJSON statusJSON results
      else
        let statusKey :=
          strings.Replace1 (Key v)
            (constants.ResourceSep +:+ resType +:+ constants.ResourceSep)
            (constants.ResourceSep +:+ statusType +:+ constants.ResourceSep) in
        statusRecords ← QueryMeta "key" statusKey;
        if (length statusRecords <=? 0)%nat
        then status_loop g resNS resNames resType statusType rest
               baseJSON statusJSON (results ++ [v])
        else
          baseJSON ← Unmarshal_map (Value v) baseJSON;
          let status := Marshal_slice statusRecords in
          statusJSON ← Unmarshal_map status statusJSON;
          baseJSON ← assign baseJSON "status" (index statusJSON "status");
          let data := Marshal_map baseJSON in
          let v := mkMeta (Key v) (Type_ v) data in
          status_loop g resNS resNames resType statusType rest
            baseJSON statusJSON (results ++ [v])
  end.

(** [getPodsFromDatabase] *)
Definition getPodsFromDatabase (g : GetOptions) (resNS : string)
    (resNames : list string) : outcome (list Meta) :=
  podRecords ← QueryAllMeta "type" model.ResourceTypePod;
  status_loop g resNS resNames model.ResourceTypePod model.ResourceTypePodStatus
    podRecords make_map make_map [].

(** [getNodeFromDatabase] *)
Definition getNodeFromDatabase (g : GetOptions) (resNS : string)
    (resNames : list string) : outcome (list Meta) :=
  nodeRecords ← QueryAllMeta "type" model.ResourceTypeNode;
  status_loop g resNS resNames model.ResourceTypeNode model.ResourceTypeNodeStatus
    nodeRecords make_map make_map [].

(** [getSingleResourceFromDatabase] *)
Fixpoint single_loop (g : GetOptions) (resNS : string) (resNames : list string)
    (records : list Meta) (results : list Meta) : list Meta :=
  match records with
  | [] => results
  | v :: rest =>
      if skip_namespace g resNS v then single_loop g resNS resNames rest results
      else if skip_name resNames v then single_loop g resNS resNames rest results
      else single_loop g resNS resNames rest (results ++ [v])
  end.

Definition getSingleResourceFromDatabase (g : GetOptions) (resNS : string)
    (resNames : list string) (resType : string) : outcome (list Meta) :=
  resRecords ← QueryAllMeta "type" resType;
  OK (single_loop g resNS resNames resRecords []).

(** The loop over [resTypes] in the [all] case of [QueryDataFromDatabase]. *)
Fixpoint all_loop (g : GetOptions) (resNames : list string)
    (resTypes : list string) (datas : list Meta) : outcome (list Meta) :=
  match resTypes with
  | [] => OK datas
  | v :: rest =>
      value ← getSingleResourceFromDatabase g (Namespace g) resNames v;
      all_loop g resNames rest (datas ++ value)
  end.

(** [QueryDataFromDatabase]: the [switch] tries its cases in order. *)
Definition QueryDataFromDatabase (g : GetOptions) (resType : string)
    (resNames : list string) : outcome (list Meta) :=
  let datas : list Meta := [] in
  if bool_decide (resType = model.ResourceTypePod) then
    pods ← getPodsFromDatabase g (Namespace g) resNames;
    OK (datas ++ pods)
  else if bool_decide (resType = model.ResourceTypeNode) then
    node ← getNodeFromDatabase g (Namespace g) resNames;
    OK (datas ++ node)
  else if bool_decide (resType ∈ [model.ResourceTypeConfigmap;
                                   model.ResourceTypeSecret;
                                   constants.ResourceTypeEndpoints;
                                   constants.ResourceTypeService]) then
    value ← getSingleResourceFromDatabase g (Namespace g) resNames resType;
    OK (datas ++ value)
  else if bool_decide (resType = ResourceTypeAll) then
    pods ← getPodsFromDatabase g (Namespace g) resNames;
    let datas := datas ++ pods in
    node ← getNodeFromDatabase g (Namespace g) resNames;
    let datas := datas ++ node in
    let resTypes := [model.ResourceTypeConfigmap; model.ResourceTypeSecret;
                     constants.ResourceTypeEndpoints;
                     constants.ResourceTypeService] in
    all_loop g resNames resTypes datas
  else Err (ErrQueryFailed resType (Namespace g)).


(** A scanned record that neither test of the loop head skips. *)
Definition retained (g : GetOptions) (resNS : string) (resNames : list string)
    (v : Meta) : bool :=
  negb (skip_namespace g resNS v) && negb (skip_name resNames v).

(** The types that [QueryDataFromDatabase] scans for a resource type. *)
Definition scanned (resType : string) : list string :=
  if bool_decide (resType = model.ResourceTypePod) then [model.ResourceTypePod]
  else if bool_decide (resType = model.ResourceTypeNode) then [model.ResourceTypeNode]
  else if bool_decide (resType ∈ [model.ResourceTypeConfigmap;
                                   model.ResourceTypeSecret;
                                   constants.ResourceTypeEndpoints;
                                   constants.ResourceTypeService]) then [resType]
  else if bool_decide (resType = ResourceTypeAll) then
    [model.ResourceTypePod; model.ResourceTypeNode; model.ResourceTypeConfigmap;
     model.ResourceTypeSecret; constants.ResourceTypeEndpoints;
     constants.ResourceTypeService]
  else [].

End Retrieval.

(** ** Typed reconstruction

    The destination types are those of [k8s.io/kubernetes/pkg/apis/core]
    ([api], table pass) and of [k8s.io/api/core/v1] ([v1], serialization
    pass).  Their fields are kept abstract: [Typed] is the type of a decoded
    field and [Unmarshal_field p t j] is [json.Unmarshal] of the text of
    [j] into the zero value of the field [t] of package [p]. *)

Inductive package := api | v1.

Inductive field :=
  | ObjectMeta
  | PodSpec
  | PodStatus
  | ServiceSpec
  | ServiceStatus
  | SecretData
  | SecretType
  | ConfigMapData
  | EndpointsSubsets.

Record TypeMeta := mkTypeMeta { Kind : string; APIVersion : string }.

Section Reconstruction.

Context {Typed : Type}.
Variable Unmarshal_field : package → field → json → outcome Typed.

Record Pod := mkPod {
  pod_TypeMeta : TypeMeta;
  pod_ObjectMeta : Typed;
  pod_Spec : Typed;
  pod_Status : Typed
}.

Record Service := mkService {
  svc_TypeMeta : TypeMeta;
  svc_ObjectMeta : Typed;
  svc_Spec : Typed;
  svc_Status : Typed
}.

Record Secret := mkSecret {
  secret_TypeMeta : TypeMeta;
  secret_ObjectMeta : Typed;
  secret_Data : Typed;
  secret_Type : Typed
}.

Record ConfigMap := mkConfigMap {
  cm_TypeMeta : TypeMeta;
  cm_ObjectMeta : Typed;
  cm_Data : Typed
}.

Record Endpoints := mkEndpoints {
  ep_TypeMeta : TypeMeta;
  ep_ObjectMeta : Typed;
  ep_Subsets : Typed
}.

(** The five lists that both passes return, named as in the source. *)
Record Lists := mkLists {
  podList : list Pod;
  serviceList : list Service;
  secretList : list Secret;
  configMapList : list ConfigMap;
  endPointsList : list Endpoints
}.

Definition empty_lists : Lists := mkLists [] [] [] [] [].

(** The loop of [ParseMetaToAPIList] and of [ParseMetaToV1List], which
    differ in the package of the destination types only.  [value] is the
    map made before the loop; every case decodes the record into it. *)
Fixpoint parse_loop (p : package) (results : list Meta) (value : gomap)
    (acc : Lists) : outcome Lists :=
  match results with
  | [] => OK acc
  | v :: rest =>
      if bool_decide (Type_ v = ResourceTypePod) then
        value ← Unmarshal_map (Value v) value;
        let metadata := index value "metadata" in
        let spec := index value "spec" in
        let status := index value "status" in
        pod_ObjectMeta ← Unmarshal_field p ObjectMeta metadata;
        pod_Spec ← Unmarshal_field p PodSpec spec;
        pod_Status ← Unmarshal_field p PodStatus status;
        let pod := mkPod (mkTypeMeta (Type_ v) "v1") pod_ObjectMeta pod_Spec pod_Status in
        parse_loop p rest value
          (mkLists (podList acc ++ [pod]) (serviceList acc) (secretList acc)
             (configMapList acc) (endPointsList acc))
      else if bool_decide (Type_ v = ResourceTypeService) then
        value ← Unmarshal_map (Value v) value;
        let metadata := index value "metadata" in
        let spec := index value "spec" in
        let status := index value "status" in
        svc_ObjectMeta ← Unmarshal_field p ObjectMeta metadata;
        svc_Spec ← Unmarshal_field p ServiceSpec spec;
        svc_Status ← Unmarshal_field p ServiceStatus status;
        let svc := mkService (mkTypeMeta (Type_ v) "v1") svc_ObjectMeta svc_Spec svc_Status in
        parse_loop p rest value
          (mkLists (podList acc) (serviceList acc ++ [svc]) (secretList acc)
             (configMapList acc) (endPointsList acc))
      else if bool_decide (Type_ v = ResourceTypeSecret) then
        value ← Unmarshal_map (Value v) value;
        let metadata := index value "metadata" in
        let data := index value "data" in
        let typeTmp := index value "type" in
        secret_ObjectMeta ← Unmarshal_field p ObjectMeta metadata;
        secret_Data ← Unmarshal_field p SecretData data;
        secret_Type ← Unmarshal_field p SecretType typeTmp;
        let secret := mkSecret (mkTypeMeta (Type_ v) "v1") secret_ObjectMeta secret_Data secret_Type in
        parse_loop p rest value
          (mkLists (podList acc) (serviceList acc) (secretList acc ++ [secret])
             (configMapList acc) (endPointsList acc))
      else if bool_decide (Type_ v = ResourceTypeConfigmap) then
        value ← Unmarshal_map (Value v) value;
        let metadata := index value "metadata" in
        let data := index value "data" in
        cm_ObjectMeta ← Unmarshal_field p ObjectMeta metadata;
        cm_Data ← Unmarshal_field p ConfigMapData data;
        let cmp := mkConfigMap (mkTypeMeta (Type_ v) "v1") cm_ObjectMeta cm_Data in
        parse_loop p rest value
          (mkLists (podList acc) (serviceList acc) (secretList acc)
             (configMapList acc ++ [cmp]) (endPointsList acc))
      else if bool_decide (Type_ v = ResourceTypeEndpoints) then
        value ← Unmarshal_map (Value v) value;
        let metadata := index value "metadata" in
        let subsets := index value "subsets" in
        ep_ObjectMeta ← Unmarshal_field p ObjectMeta metadata;
        ep_Subsets ← Unmarshal_field p EndpointsSubsets subsets;
        let ep := mkEndpoints (mkTypeMeta (Type_ v) "v1") ep_ObjectMeta ep_Subsets in
        parse_loop p rest value
          (mkLists (podList acc) (serviceList acc) (secretList acc)
             (configMapList acc) (endPointsList acc ++ [ep]))
      else Err (ErrParsingUnrecognizedType (Type_ v))
  end.

(** [ParseMetaToAPIList] *)
Definition ParseMetaToAPIList (results : list Meta) : outcome Lists :=
  parse_loop api results make_map empty_lists.

(** [ParseMetaToV1List] *)
Definition ParseMetaToV1List (results : list Meta) : outcome Lists :=
  parse_loop v1 results make_map empty_lists.

(** ** The json/yaml printing path

    What reaches the printer is recorded, in order: a single item, or the
    list object built by [PrintGeneric] with its kind, its version and its
    items.  The printer, [json.Marshal] of the [v1.List] and
    [runtime.Decode] are taken to succeed. *)

Inductive Object :=
  | PodObject (o : Pod)
  | ServiceObject (o : Service)
  | SecretObject (o : Secret)
  | ConfigMapObject (o : ConfigMap)
  | EndpointsObject (o : Endpoints).

Inductive Printed :=
  | PrintedObject (o : Object)
  | PrintedList (tm : TypeMeta) (items : list Object).

(** One of the five blocks of [JSONYamlPrint].  [list_items] is
    [list.Items] of the [v1.List] declared at the head of the function and
    [out] what was printed so far. *)
Definition print_block {A} (wrap : A → Object) (items : list A)
    (st : list Object * list Printed) : list Object * list Printed :=
  let '(list_items, out) := st in
  match items with
  | [] => (list_items, out)
  | [info] => (list_items, out ++ [PrintedObject (wrap info)])
  | _ =>
      let list_items := list_items ++ (wrap <$> items) in
      (list_items, out ++ [PrintedList (mkTypeMeta "List" "v1") list_items])
  end.

(** [JSONYamlPrint] *)
Definition JSONYamlPrint (results : list Meta) : outcome (list Printed) :=
  lists ← ParseMetaToV1List results;
  let st := ([], []) in
  let st := print_block PodObject (podList lists) st in
  let st := print_block ServiceObject (serviceList lists) st in
  let st := print_block SecretObject (secretList lists) st in
  let st := print_block ConfigMapObject (configMapList lists) st in
  let st := print_block EndpointsObject (endPointsList lists) st in
  OK st.2.

End Reconstruction.

Arguments Pod : clear implicits.
Arguments Service : clear implicits.
Arguments Secret : clear implicits.
Arguments ConfigMap : clear implicits.
Arguments Endpoints : clear implicits.
Arguments Lists : clear implicits.
Arguments Object : clear implicits.
Arguments Printed : clear implicits.

(** ** The table path, [ExecuteGet] and the error exit

    [ConvertDataToTable] wraps the table generator of [k8s.io/kubernetes]
    and [PrintFlags.ToPrinter] belongs to another file of the package; both
    are taken as they are called.  What reaches the output stream is
    recorded in order, next to the result of the call; the writes
    themselves ([printer.PrintObj], [fmt.Fprintln], [fmt.Fprintf]) are
    taken to succeed. *)

Inductive ListObject {Typed : Type} :=
  | PodListObject (items : list (Pod Typed))
  | ServiceListObject (items : list (Service Typed))
  | SecretListObject (items : list (Secret Typed))
  | ConfigMapListObject (items : list (ConfigMap Typed))
  | EndpointsListObject (items : list (Endpoints Typed)).
Arguments ListObject : clear implicits.

(** [len(list.Items)] *)
Definition list_length {Typed} (obj : ListObject Typed) : nat :=
  match obj with
  | PodListObject items => length items
  | ServiceListObject items => length items
  | SecretListObject items => length items
  | ConfigMapListObject items => length items
  | EndpointsListObject items => length items
  end.

Inductive Written {Typed Table : Type} :=
  | NoResourcesFound (ns : string)
  | TablePrinted (t : Table)
  | BlankLine
  | StructuredPrinted (p : Printed Typed).
Arguments Written : clear implicits.

Section Execute.

Context {Row Typed Table : Type}.
Variable Row_json : Row → json.
Variable QueryAllMeta : string → string → outcome (list Meta).
Variable QueryMeta : string → string → outcome (list Row).
Variable ParseResourceEdge :
  string → string → string * string * string * option error.
Variable Unmarshal_field : package → field → json → outcome Typed.
Variable ConvertDataToTable : ListObject Typed → outcome Table.
Variable ToPrinter : PrintFlags → outcome ().

(** A call that ends in an error or a panic, with what was written before. *)
Definition stopped {A} (out : list (Written Typed Table)) (x : outcome A)
  : list (Written Typed Table) * outcome () :=
  match x with
  | OK _ => (out, OK ())
  | Err e => (out, Err e)
  | Panic msg => (out, Panic msg)
  end.

(** The five blocks of [HumanReadablePrint], one list after the other: an
    empty list is passed over, another one is converted, printed and
    followed by a blank line. *)
Fixpoint print_tables (objs : list (ListObject Typed))
    (out : list (Written Typed Table)) : list (Written Typed Table) * outcome () :=
  match objs with
  | [] => (out, OK ())
  | obj :: rest =>
      if (list_length obj =? 0)%nat then print_tables rest out
      else
        match ConvertDataToTable obj with
        | OK talbe => print_tables rest (out ++ [TablePrinted talbe; BlankLine])
        | failure => stopped out failure
        end
  end.

(** [HumanReadablePrint] *)
Definition HumanReadablePrint (results : list Meta)
  : list (Written Typed Table) * outcome () :=
  match ParseMetaToAPIList Unmarshal_field results with
  | OK lists =>
      print_tables
        [ PodListObject (podList lists);
          ServiceListObject (serviceList lists);
          SecretListObject (secretList lists);
          ConfigMapListObject (configMapList lists);
          EndpointsListObject (endPointsList lists) ] []
  | failure => stopped [] failure
  end.


End Execute.





(** ** A database, a key parser and field decoders to run the code on *)

(** The text of a document as [encoding/json] writes it, for the [Value]
    column inside a marshalled row. *)
Definition quote_char : string := String (Ascii.ascii_of_nat 34) EmptyString.
Definition backslash : string := String (Ascii.ascii_of_nat 92) EmptyString.

Fixpoint escape (s : string) : string :=
  match s with
  | EmptyString => EmptyString
  | String c s' =>
      (if bool_decide (String c EmptyString = quote_char) ||
          bool_decide (String c EmptyString = backslash)
       then backslash else EmptyString) +:+ String c (escape s')
  end.

Definition quoted (s : string) : string := quote_char +:+ escape s +:+ quote_char.

Fixpoint render (j : json) : string :=
  match j with
  | JNull => "null"
  | JBool true => "true"
  | JBool false => "false"
  | JNumber literal => literal
  | JString s => quoted s
  | JArray items =>
      "[" +:+
      (fix items_text (l : list json) : string :=
         match l with
         | [] => EmptyString
         | [x] => render x
         | x :: r => render x +:+ "," +:+ items_text r
         end) items +:+ "]"
  | JObject members =>
      "{" +:+
      (fix members_text (l : list (string * json)) : string :=
         match l with
         | [] => EmptyString
         | [(k, x)] => quoted k +:+ ":" +:+ render x
         | (k, x) :: r => quoted k +:+ ":" +:+ render x +:+ "," +:+ members_text r
         end) members +:+ "}"
  end.

Definition text_string (t : text) : string :=
  match t with
  | Malformed s => s
  | Doc j => render j
  end.

Module Store.

(** The column of the meta table that a query condition is about. *)
Definition column (name : string) (m : Meta) : string :=
  if bool_decide (name = "key") then Key m
  else if bool_decide (name = "type") then Type_ m
  else text_string (Value m).

(** Modelled from the spec: [dao.QueryAllMeta], of package
    [edge/pkg/metamanager/dao], is the scan-by-type operation that returns
    an ordered sequence of records.  The store is the sequence of its
    records and the scan returns, in store order, those whose column has
    the given value. *)
Definition QueryAllMeta (db : list Meta) (key condition : string)
  : outcome (list Meta) :=
  OK (filter (λ m, column key m = condition) db).

(** Modelled from the spec: [dao.QueryMeta], of the same package, is the
    lookup-by-key operation that returns zero or one record: the records
    whose column has the given value, one at most when keys are unique. *)
Definition QueryMeta (db : list Meta) (key condition : string)
  : outcome (list Meta) :=
  OK (filter (λ m, column key m = condition) db).

(** A record as [encoding/json] writes a struct without field tags. *)
Definition Row_json (m : Meta) : json :=
  JObject [("Key", JString (Key m)); ("Type", JString (Type_ m));
           ("Value", JString (text_string (Value m)))].

(** The first three results of beehive's [util.ParseResourceEdge] for a
    key of the layout [namespace/type/name]; for a query operation a key
    with another number of segments yields its first two. *)
Definition ParseResourceEdge (resource operation : string)
  : string * string * string * option error :=
  match strings.Split resource constants.ResourceSep with
  | [ns; ty; id] => (ns, ty, id, None)
  | ns :: ty :: _ => (ns, ty, "", None)
  | _ => ("", "", "", Some (ErrStore "resource format incorrect"))
  end.

(** Field decoders that check the JSON shape the Go destination accepts:
    [null] leaves the zero value, a struct or a map wants an object, a
    slice an array and a string type a string. *)
Definition Unmarshal_field (p : package) (t : field) (j : json) : outcome json :=
  match t, j with
  | _, JNull => OK JNull
  | SecretType, JString _ => OK j
  | SecretType, _ => Err ErrUnmarshal
  | EndpointsSubsets, JArray _ => OK j
  | EndpointsSubsets, _ => Err ErrUnmarshal
  | _, JObject _ => OK j
  | _, _ => Err ErrUnmarshal
  end.

End Store.

(** Sample documents and records. *)
Definition labelled (name : string) (labels : list (string * json)) : json :=
  JObject [("metadata", JObject [("name", JString name); ("labels", JObject labels)])].

Definition running : json := JObject [("phase", JString "Running")].

Definition pod_web : Meta :=
  mkMeta "default/pod/web" "pod"
    (Doc (JObject [("metadata", JObject [("name", JString "web")]);
                   ("spec", JObject [("nodeName", JString "edge-1")])])).

Definition podstatus_web : Meta :=
  mkMeta "default/podstatus/web" "podstatus"
    (Doc (JObject [("status", running)])).

Definition pod_full : Meta :=
  mkMeta "default/pod/db" "pod"
    (Doc (JObject [("metadata", JObject [("name", JString "db")]);
                   ("spec", JObject [("nodeName", JString "edge-1")]);
                   ("status", running)])).

Definition node_edge : Meta :=
  mkMeta "default/node/edge-1" "node"
    (Doc (JObject [("metadata", JObject [("name", JString "edge-1")])])).

Definition svc_a : Meta :=
  mkMeta "default/service/a" "service"
    (Doc (JObject [("metadata", JObject [("name", JString "a")])])).

Definition svc_b : Meta :=
  mkMeta "prod/service/b" "service"
    (Doc (JObject [("metadata", JObject [("name", JString "b")])])).

Definition in_namespace (ns : string) : GetOptions :=
  mkGetOptions false ns "" edgecoreCfg.DataBaseDataSource (mkPrintFlags "").

Definition all_namespaces : GetOptions :=
  mkGetOptions true "default" "" edgecoreCfg.DataBaseDataSource (mkPrintFlags "").

(** Retrieval over a store [db]. *)
Definition query (db : list Meta) (g : GetOptions) (resType : string)
    (resNames : list string) : outcome (list Meta) :=
  QueryDataFromDatabase Store.Row_json (Store.QueryAllMeta db) (Store.QueryMeta db)
    Store.ParseResourceEdge g resType resNames.

(** Five candidates: two labelled env=prod,tier=web, one labelled
    env=prod,tier=cache and two without labels. *)
Definition candidates : list Meta :=
  [ mkMeta "default/pod/w1" "pod"
      (Doc (labelled "w1" [("env", JString "prod"); ("tier", JString "web")]));
    mkMeta "default/pod/c1" "pod"
      (Doc (labelled "c1" [("env", JString "prod"); ("tier", JString "cache")]));
    mkMeta "default/pod/web" "pod"
      (Doc (JObject [("metadata", JObject [("name", JString "web")])]));
    mkMeta "default/pod/w2" "pod"
      (Doc (labelled "w2" [("env", JString "prod"); ("tier", JString "web")]));
    mkMeta "default/pod/db" "pod"
      (Doc (JObject [("metadata", JObject [("name", JString "db"); ("labels", JNull)])])) ].


Definition nodestatus_edge : Meta :=
  mkMeta "default/nodestatus/edge-1" "nodestatus"
    (Doc (JObject [("status", JObject [("phase", JString "Running")])])).

Definition secret_full : Meta :=
  mkMeta "default/secret/token" "secret"
    (Doc (JObject [("metadata", JObject [("name", JString "token")]);
                   ("data", JObject [("key", JString "c2VjcmV0")]);
                   ("type", JString "Opaque")])).

Definition secret_bare : Meta :=
  mkMeta "default/secret/empty" "secret"
    (Doc (JObject [("metadata", JObject [("name", JString "empty")])])).

(** ** Notions used by the further properties *)



(** A document with an object [metadata] member. *)
Definition has_metadata (r : Meta) : Prop :=
  ∃ members metadata,
    Value r = Doc (JObject members) ∧
    object_map members !! "metadata" = Some (JObject metadata).

(** A text that does not decode into a map: not JSON, or a JSON value that
    is neither an object nor [null]. *)
Definition undecodable (t : text) : Prop :=
  match t with
  | Doc (JObject _) | Doc JNull => False
  | _ => True
  end.

(** The key under which the status of a record is looked up: the first
    occurrence of the type segment of its key replaced by the status type. *)
Definition status_key (resType statusType key : string) : string :=
  strings.Replace1 key
    (constants.ResourceSep +:+ resType +:+ constants.ResourceSep)
    (constants.ResourceSep +:+ statusType +:+ constants.ResourceSep).

(** The seven arguments that [QueryDataFromDatabase] has a case for. *)
Definition dispatched : list string :=
  [model.ResourceTypePod; model.ResourceTypeNode; model.ResourceTypeConfigmap;
   model.ResourceTypeSecret; constants.ResourceTypeEndpoints;
   constants.ResourceTypeService; ResourceTypeAll].

(** A store with records of three types in two namespaces. *)
Definition sample_store : list Meta := [pod_web; svc_a; svc_b; node_edge].

(** A store whose scan of one type fails. *)
Definition QueryAllMeta_failing (broken : string) (db : list Meta)
    (key condition : string) : outcome (list Meta) :=
  if bool_decide (condition = broken) then Err (ErrStore "database is locked")
  else Store.QueryAllMeta db key condition.

(** The options with another output format. *)
Definition with_format (g : GetOptions) (format : string) : GetOptions :=
  mkGetOptions (AllNamespace g) (Namespace g) (LabelSelector g) (DataPath g)
    (mkPrintFlags format).

(** The keys of [availableResources]. *)
Definition resource_names : list string :=
  ["all"; "po"; "pod"; "pods"; "svc"; "service"; "services"; "secret";
   "secrets"; "cm"; "configmap"; "configmaps"; "ep"; "endpoint"; "endpoints"].

(** The five types that the reconstruction has a case for. *)
Definition kinds : list string :=
  [ResourceTypePod; ResourceTypeService; ResourceTypeSecret;
   ResourceTypeConfigmap; ResourceTypeEndpoints].

(** How many records have a type. *)
Definition count_type (t : string) (results : list Meta) : nat :=
  length (filter (λ r, Type_ r = t) results).

(** The sections of the document that the case of a type reads. *)
Definition sections (t : string) : list string :=
  if bool_decide (t = ResourceTypePod) then ["metadata"; "spec"; "status"]
  else if bool_decide (t = ResourceTypeService) then ["metadata"; "spec"; "status"]
  else if bool_decide (t = ResourceTypeSecret) then ["metadata"; "data"; "type"]
  else if bool_decide (t = ResourceTypeConfigmap) then ["metadata"; "data"]
  else if bool_decide (t = ResourceTypeEndpoints) then ["metadata"; "subsets"]
  else [].

(** A record whose document, when it is an object, has every section that
    the case of its type reads. *)
Definition complete (r : Meta) : Prop :=
  match Value r with
  | Doc (JObject members) =>
      Forall (λ k, is_Some (object_map members !! k)) (sections (Type_ r))
  | _ => True
  end.

(** The five lists of one reconstruction followed by those of another. *)
Definition append_lists {Typed} (a b : Lists Typed) : Lists Typed :=
  mkLists (podList a ++ podList b) (serviceList a ++ serviceList b)
    (secretList a ++ secretList b) (configMapList a ++ configMapList b)
    (endPointsList a ++ endPointsList b).

(** Every item carries the version [v1] and, as its kind, the type of the
    list it is in. *)
Definition stamped {Typed} (lists : Lists Typed) : Prop :=
  Forall (λ o, pod_TypeMeta o = mkTypeMeta ResourceTypePod "v1") (podList lists) ∧
  Forall (λ o, svc_TypeMeta o = mkTypeMeta ResourceTypeService "v1") (serviceList lists) ∧
  Forall (λ o, secret_TypeMeta o = mkTypeMeta ResourceTypeSecret "v1") (secretList lists) ∧
  Forall (λ o, cm_TypeMeta o = mkTypeMeta ResourceTypeConfigmap "v1") (configMapList lists) ∧
  Forall (λ o, ep_TypeMeta o = mkTypeMeta ResourceTypeEndpoints "v1") (endPointsList lists).

(** The number of items of every list is the number of records of its
    type. *)
Definition counted {Typed} (results : list Meta) (lists : Lists Typed) : Prop :=
  length (podList lists) = count_type ResourceTypePod results ∧
  length (serviceList lists) = count_type ResourceTypeService results ∧
  length (secretList lists) = count_type ResourceTypeSecret results ∧
  length (configMapList lists) = count_type ResourceTypeConfigmap results ∧
  length (endPointsList lists) = count_type ResourceTypeEndpoints results.

(** A service with every section. *)
Definition svc_full : Meta :=
  mkMeta "default/service/front" "service"
    (Doc (JObject [("metadata", JObject [("name", JString "front")]);
                   ("spec", JObject [("clusterIP", JString "10.0.0.1")]);
                   ("status", JObject [])])).

(** What the structured path is to print for the items of one kind: nothing
    for none, the item for one, a list of the items for more. *)
Definition print_kind {Typed A} (wrap : A → Object Typed) (items : list A)
  : list (Printed Typed) :=
  match items with
  | [] => []
  | [info] => [PrintedObject (wrap info)]
  | _ => [PrintedList (mkTypeMeta "List" "v1") (wrap <$> items)]
  end.

Definition print_by_kind {Typed} (lists : Lists Typed) : list (Printed Typed) :=
  print_kind PodObject (podList lists) ++
  print_kind ServiceObject (serviceList lists) ++
  print_kind SecretObject (secretList lists) ++
  print_kind ConfigMapObject (configMapList lists) ++
  print_kind EndpointsObject (endPointsList lists).

(** How many of the five lists have two items or more. *)
Definition several {A} (items : list A) : nat :=
  if (2 <=? length items)%nat then 1 else 0.

Definition kinds_with_several {Typed} (lists : Lists Typed) : nat :=
  several (podList lists) + several (serviceList lists) +
  several (secretList lists) + several (configMapList lists) +
  several (endPointsList lists).

(** The five list objects of the table path, those with items. *)
Definition table_objects {Typed} (lists : Lists Typed) : list (ListObject Typed) :=
  filter (λ obj, list_length obj ≠ 0)
    [ PodListObject (podList lists);
      ServiceListObject (serviceList lists);
      SecretListObject (secretList lists);
      ConfigMapListObject (configMapList lists);
      EndpointsListObject (endPointsList lists) ].

(** A table converter that shows the number of rows, and a printer
    constructor that succeeds. *)
Definition row_count {Typed} (obj : ListObject Typed) : outcome nat :=
  OK (list_length obj).




(** * Properties *)

(** ** Selector parsing *)

Lemma split_label_clause label results sel :
  (st ← split_label label (results, sel); OK st.1) =
  (c ← term_clause label; OK (results ++ option_list c)).
Proof.
  unfold split_label, term_clause, first_operator.
  destruct (strings.Contains label "==").
  { destruct (strings.Split label "==") as [|k [|v [|? ?]]]; reflexivity. }
  destruct (strings.Contains label "!=").
  { destruct (strings.Split label "!=") as [|k [|v [|? ?]]]; reflexivity. }
  destruct (strings.Contains label "=").
  { destruct (strings.Split label "=") as [|k [|v [|? ?]]]; reflexivity. }
  cbn. by rewrite app_nil_r.
Qed.

Lemma split_labels_clauses labels results sel :
  (st ← split_labels labels (results, sel); OK st.1) =
  (cs ← clauses_of labels; OK (results ++ cs)).
Proof.
  revert results sel. induction labels as [|label rest IH]; intros results sel.
  { cbn. by rewrite app_nil_r. }
  cbn [split_labels clauses_of].
  pose proof (split_label_clause label results sel) as E.
  destruct (split_label label (results, sel)) as [[results' sel']| |] eqn:Hl;
    cbn in E.
  - destruct (term_clause label) as [c| |]; cbn in E; [|done..].
    injection E as ->. cbn. rewrite IH.
    destruct (clauses_of rest) as [cs| |]; cbn; [|done..].
    by rewrite app_assoc.
  - destruct (term_clause label) as [c| |]; cbn in E; [done| |done].
    by injection E as ->.
  - destruct (term_clause label) as [c| |]; cbn in E; [done|done|].
    by injection E as ->.
Qed.

Lemma split_label_no_operator term st :
  strings.Contains term "==" = false →
  strings.Contains term "!=" = false →
  strings.Contains term "=" = false →
  split_label term st = OK st.
Proof.
  intros H1 H2 H3. destruct st as [results sel]. unfold split_label.
  by rewrite H1, H2, H3.
Qed.

Lemma split_labels_app pre post st :
  split_labels (pre ++ post) st = (st' ← split_labels pre st; split_labels post st').
Proof.
  revert st. induction pre as [|t pre IH]; intros st; [done|].
  cbn. destruct (split_label t st) as [st'| |]; cbn; [apply IH|done..].
Qed.

(** C6, as the code has it: the clauses of an expression are those of its
    comma-separated terms, in order; each term is classified by the first
    of [==], [!=], [=] it contains, [!=] giving exists=false and the other
    two exists=true; a term with an operator is an error exactly when it
    does not split on that operator into two sides, and either side may
    be empty. *)
Theorem SplitSelectorParameters_by_term (args : string) :
  SplitSelectorParameters args = clauses_of (strings.Split args ",").
Proof.
  unfold SplitSelectorParameters, parse_labels.
  rewrite split_labels_clauses.
  destruct (clauses_of _); reflexivity.
Qed.

(** C6, the claim as stated fails: the term [a==] contains an operator and
    its right-hand side is empty, yet it is parsed into a clause; so is
    [!=b], whose left-hand side is empty. *)
Lemma SplitSelectorParameters_empty_side :
  strings.Split "a==" "==" = ["a"; ""] ∧
  SplitSelectorParameters "a==" = OK [mkSelector "a" "" true] ∧
  SplitSelectorParameters "!=b" = OK [mkSelector "" "b" false].
Proof. repeat split; reflexivity. Qed.

(** C10: a term that contains none of [==], [!=], [=] is passed over by the
    loop, which neither fails on it nor adds a clause; the expression
    parses as the same list of terms without it. *)
Theorem SplitSelectorParameters_skips_plain_term
    (args : string) (pre post : list string) (term : string) :
  strings.Split args "," = pre ++ term :: post →
  strings.Contains term "==" = false →
  strings.Contains term "!=" = false →
  strings.Contains term "=" = false →
  (∀ st, split_label term st = OK st) ∧
  SplitSelectorParameters args = parse_labels (pre ++ post).
Proof.
  intros Hs H1 H2 H3. split.
  { intros st. by apply split_label_no_operator. }
  unfold SplitSelectorParameters, parse_labels. rewrite Hs.
  rewrite !split_labels_app.
  destruct (split_labels pre _) as [st| |]; cbn; [|done..].
  by rewrite split_label_no_operator.
Qed.

Lemma SplitSelectorParameters_skips_plain_term_witness :
  strings.Split "a=b,foo," "," = ["a=b"] ++ "foo" :: [""] ∧
  SplitSelectorParameters "a=b,foo," = OK [mkSelector "a" "b" true] ∧
  SplitSelectorParameters "a=b," = OK [mkSelector "a" "b" true].
Proof.
  split; [reflexivity|]. split.
  - exact (proj2 (SplitSelectorParameters_skips_plain_term
                    "a=b,foo," ["a=b"] [""] "foo"
                    eq_refl eq_refl eq_refl eq_refl)).
  - exact (proj2 (SplitSelectorParameters_skips_plain_term
                    "a=b," ["a=b"] [] ""
                    eq_refl eq_refl eq_refl eq_refl)).
Defined.

(** *** [strings.Split] cuts at the separator

    Joining the pieces of [Split s sep] with [sep] gives [s] back, so a
    term that splits into two sides [k] and [v] is [k], the operator, [v]. *)

Lemma append_cons (c : ascii) (s t : string) :
  String c s +:+ t = String c (s +:+ t).
Proof. reflexivity. Qed.

Lemma append_empty_l (s : string) : "" +:+ s = s.
Proof. reflexivity. Qed.


Lemma append_assoc (s t u : string) : (s +:+ t) +:+ u = s +:+ (t +:+ u).
Proof. induction s as [|c s IH]; [done|]. by rewrite !append_cons, IH. Qed.









(** ** Decoding into a map that is reused *)

Lemma store_members_cons k v members g :
  store_members ((k, v) :: members) g = store_members members (<[k := v]> g).
Proof. reflexivity. Qed.

(** A name that occurs in the document takes its last value there; every
    other entry of the map is the one it held before. *)
Lemma store_members_lookup members (g : gmap string json) k :
  store_members members g !! k =
  match object_map members !! k with
  | Some x => Some x
  | None => g !! k
  end.
Proof.
  unfold object_map. revert g.
  induction members as [|[k0 v0] members IH]; intros g.
  { cbn. by rewrite lookup_empty. }
  rewrite !store_members_cons, (IH (<[k0 := v0]> g)), (IH (<[k0 := v0]> ∅)).
  destruct (store_members members ∅ !! k); [done|].
  destruct (decide (k0 = k)) as [->|Hne].
  - by rewrite !lookup_insert_eq.
  - by rewrite !lookup_insert_ne, lookup_empty.
Qed.

(** A section that a document does not have is read from what an earlier
    document left in the map. *)
Lemma index_stale members (g : gmap string json) k :
  object_map members !! k = None →
  index (Some (store_members members g)) k = index (Some g) k.
Proof. intros H. unfold index. by rewrite store_members_lookup, H. Qed.

Lemma index_after_Unmarshal members m k x :
  object_map members !! k = Some x →
  index (Some (store_members members (default ∅ m))) k = x.
Proof. intros H. unfold index. by rewrite store_members_lookup, H. Qed.

(** ** The selector filter *)

Lemma iface_eq_string_spec (labels : gmap string json) k v :
  iface_eq_string (index (Some labels) k) v =
  bool_decide (labels !! k = Some (JString v)).
Proof.
  unfold index, iface_eq_string.
  destruct (bool_decide_reflect (labels !! k = Some (JString v))) as [H|H].
  - rewrite H. cbn. by apply bool_decide_eq_true_2.
  - destruct (labels !! k) as [[| | |s| |]|]; cbn; try done.
    apply bool_decide_eq_false_2. congruence.
Qed.

Lemma clause_holds_bool (labels : gmap string json) c :
  (if negb (Exist c)
   then negb (bool_decide (labels !! SKey c = Some (JString (SValue c))))
   else bool_decide (labels !! SKey c = Some (JString (SValue c)))) =
  bool_decide (clause_holds labels c).
Proof.
  destruct c as [k v e]. apply eq_true_iff_eq.
  rewrite bool_decide_eq_true. unfold clause_holds. destruct e; cbn.
  - by rewrite bool_decide_eq_true.
  - by rewrite negb_true_iff, bool_decide_eq_false.
Qed.

Lemma match_labels_object labels clauses flag :
  match_labels (JObject labels) clauses flag =
  OK (flag && bool_decide (Forall (clause_holds (object_map labels)) clauses)).
Proof.
  revert flag. induction clauses as [|c clauses IH]; intros flag.
  { cbn [match_labels].
    rewrite bool_decide_eq_true_2; [by rewrite andb_true_r|constructor]. }
  cbn [match_labels]. destruct flag.
  - cbn [assert_map mbind outcome_bind andb].
    assert (Hc : bool_decide (Forall (clause_holds (object_map labels)) (c :: clauses))
                 = bool_decide (clause_holds (object_map labels) c) &&
                   bool_decide (Forall (clause_holds (object_map labels)) clauses)).
    { apply eq_true_iff_eq. rewrite andb_true_iff, !bool_decide_eq_true.
      apply Forall_cons. }
    rewrite Hc, <- clause_holds_bool, !iface_eq_string_spec.
    destruct (negb (Exist c)); by rewrite IH.
  - by rewrite IH.
Qed.

Lemma selected_without_labels clauses r :
  record_labels r = None → selected clauses r.
Proof. unfold selected. by intros ->. Qed.

Lemma filter_loop_selected clauses data jsonValue results :
  Forall labels_well_formed data →
  filter_loop clauses data jsonValue results =
  OK (results ++ filter (selected clauses) data).
Proof.
  intros Hwf. revert jsonValue results.
  induction Hwf as [|v rest (members & metadata & Hv & Hm & Hl) _ IH];
    intros jsonValue results.
  { cbn. by rewrite app_nil_r. }
  cbn [filter_loop]. rewrite Hv. cbn [Unmarshal_map mbind outcome_bind].
  rewrite (index_after_Unmarshal _ _ _ _ Hm).
  cbn [assert_map mbind outcome_bind]. unfold index.
  destruct Hl as [Hl|[Hl|[labels Hl]]]; rewrite Hl; cbn [from_option id is_nil].
  - rewrite IH, filter_cons_True, <- app_assoc; [done|].
    apply selected_without_labels. unfold record_labels. by rewrite Hv, Hm, Hl.
  - rewrite IH, filter_cons_True, <- app_assoc; [done|].
    apply selected_without_labels. unfold record_labels. by rewrite Hv, Hm, Hl.
  - assert (Hr : record_labels v = Some (object_map labels)).
    { unfold record_labels. by rewrite Hv, Hm, Hl. }
    rewrite match_labels_object. cbn [andb mbind outcome_bind].
    destruct (decide (Forall (clause_holds (object_map labels)) clauses)) as [Hf|Hf].
    + rewrite bool_decide_eq_true_2 by done.
      rewrite IH, filter_cons_True, <- app_assoc; [done|].
      unfold selected. by rewrite Hr.
    + rewrite bool_decide_eq_false_2 by done.
      rewrite IH, filter_cons_False; [done|].
      unfold selected. by rewrite Hr.
Qed.


(** The cases that the claim spells out. *)
Lemma clause_equal_absent labels k v :
  labels !! k = None → ¬ clause_holds labels (mkSelector k v true).
Proof. unfold clause_holds. cbn. congruence. Qed.

Lemma clause_differs_absent labels k v :
  labels !! k = None → clause_holds labels (mkSelector k v false).
Proof. unfold clause_holds. cbn. congruence. Qed.



(** C9, at documents that are valid JSON: without a [metadata] member, with
    a [metadata] member that is not an object, and with a [labels] member
    that is not a map, the type assertions of [FilterSelector] panic. *)
Theorem FilterSelector_panics :
  is_Panic (FilterSelector [mkMeta "default/pod/a" "pod" (Doc (JObject []))] "a=b") = true ∧
  is_Panic (FilterSelector
              [mkMeta "default/pod/a" "pod"
                 (Doc (JObject [("metadata", JString "a")]))] "a=b") = true ∧
  is_Panic (FilterSelector
              [mkMeta "default/pod/a" "pod"
                 (Doc (JObject [("metadata", JObject [("labels", JString "a")])]))]
              "a=b") = true ∧
  is_Panic (FilterSelector [mkMeta "default/pod/a" "pod" (Doc JNull)] "a=b") = true.
Proof. repeat split; vm_compute; reflexivity. Qed.

(** ** Record retrieval *)

Section RetrievalProperties.

Context {Row : Type}.
Variable Row_json : Row → json.
Variable QueryAllMeta : string → string → outcome (list Meta).
Variable QueryMeta : string → string → outcome (list Row).
Variable ParseResourceEdge :
  string → string → string * string * string * option error.




Lemma single_loop_filter g resNS resNames records results :
  single_loop ParseResourceEdge g resNS resNames records results =
  results ++ filter (λ v, retained ParseResourceEdge g resNS resNames v = true) records.
Proof.
  revert results. induction records as [|v rest IH]; intros results.
  { cbn. by rewrite app_nil_r. }
  cbn [single_loop]. unfold retained at 1.
  destruct (skip_namespace ParseResourceEdge g resNS v) eqn:Hns.
  { rewrite IH, filter_cons_False; [done|]. unfold retained. by rewrite Hns. }
  destruct (skip_name resNames v) eqn:Hn.
  { rewrite IH, filter_cons_False; [done|]. unfold retained. by rewrite Hns, Hn. }
  rewrite IH, filter_cons_True, <- app_assoc; [done|].
  unfold retained. by rewrite Hns, Hn.
Qed.

(** A JSON array does not decode into a map. *)
Lemma Unmarshal_slice_fails (rows : list Row) m :
  Unmarshal_map (Marshal_slice Row_json rows) m = Err ErrUnmarshal.
Proof. reflexivity. Qed.

(** The merge never completes: for a retained record with a status record
    the marshalled slice of status records is decoded into a map, which
    fails, whatever the two documents hold. *)
Lemma status_loop_aborts g resNS resNames resType statusType v rest
    baseJSON statusJSON results rows :
  retained ParseResourceEdge g resNS resNames v = true →
  QueryMeta "key"
    (strings.Replace1 (Key v)
       (constants.ResourceSep +:+ resType +:+ constants.ResourceSep)
       (constants.ResourceSep +:+ statusType +:+ constants.ResourceSep)) = OK rows →
  rows ≠ [] →
  status_loop Row_json QueryMeta ParseResourceEdge g resNS resNames
    resType statusType (v :: rest) baseJSON statusJSON results = Err ErrUnmarshal.
Proof.
  unfold retained. intros Hr Hq Hrows.
  apply andb_true_iff in Hr as [Hns Hn].
  apply negb_true_iff in Hns, Hn.
  cbn [status_loop]. rewrite Hns, Hn, Hq. cbn [mbind outcome_bind].
  destruct rows as [|row rows]; [done|]. cbn [length Nat.leb].
  destruct (Unmarshal_map (Value v) baseJSON) as [m| |] eqn:Hu; cbn; [done| |].
  - unfold Unmarshal_map in Hu. destruct (Value v) as [|[]]; congruence.
  - unfold Unmarshal_map in Hu. destruct (Value v) as [|[]]; congruence.
Qed.

(** A loop that returns has met no status record, and returns the retained
    records as they were scanned. *)
Lemma status_loop_filter g resNS resNames resType statusType records
    baseJSON statusJSON results out :
  status_loop Row_json QueryMeta ParseResourceEdge g resNS resNames
    resType statusType records baseJSON statusJSON results = OK out →
  out = results ++ filter (λ v, retained ParseResourceEdge g resNS resNames v = true) records.
Proof.
  revert baseJSON statusJSON results.
  induction records as [|v rest IH]; intros baseJSON statusJSON results H.
  { cbn in H. injection H as <-. by rewrite app_nil_r. }
  destruct (retained ParseResourceEdge g resNS resNames v) eqn:Hr.
  - rewrite filter_cons_True by done.
    pose proof Hr as Hr'. unfold retained in Hr'.
    apply andb_true_iff in Hr' as [Hns Hn]. apply negb_true_iff in Hns, Hn.
    destruct (QueryMeta "key"
      (strings.Replace1 (Key v)
         (constants.ResourceSep +:+ resType +:+ constants.ResourceSep)
         (constants.ResourceSep +:+ statusType +:+ constants.ResourceSep)))
      as [rows| |] eqn:Hq.
    + destruct rows as [|row rows].
      * cbn [status_loop] in H. rewrite Hns, Hn, Hq in H. cbn in H.
        apply IH in H. by rewrite H, <- app_assoc.
      * rewrite (status_loop_aborts _ _ _ _ _ _ _ _ _ _ (row :: rows)) in H; done.
    + cbn [status_loop] in H. rewrite Hns, Hn, Hq in H. done.
    + cbn [status_loop] in H. rewrite Hns, Hn, Hq in H. done.
  - rewrite filter_cons_False by (by rewrite Hr).
    unfold retained in Hr. cbn [status_loop] in H.
    destruct (skip_namespace ParseResourceEdge g resNS v); [by apply IH in H|].
    destruct (skip_name resNames v); [by apply IH in H|]. done.
Qed.

(** What a query that returns has returned: the retained records of the
    scans it made, in the order of the scans. *)
Lemma all_loop_scans g resNames resTypes datas out :
  all_loop QueryAllMeta ParseResourceEdge g resNames resTypes datas = OK out →
  ∃ scans,
    Forall2 (λ t rows, QueryAllMeta "type" t = OK rows) resTypes scans ∧
    out = datas ++
          filter (λ v, retained ParseResourceEdge g (Namespace g) resNames v = true) (concat scans).
Proof.
  revert datas. induction resTypes as [|t rest IH]; intros datas H.
  { cbn in H. injection H as <-. exists []. split; [constructor|].
    cbn. by rewrite app_nil_r. }
  cbn [all_loop] in H. unfold getSingleResourceFromDatabase in H.
  destruct (QueryAllMeta "type" t) as [rows| |] eqn:Hq; cbn in H; [|done..].
  apply IH in H as (scans & Hs & ->).
  exists (rows :: scans). split; [by constructor|].
  cbn [concat]. rewrite single_loop_filter, filter_app. cbn [app].
  by rewrite <- app_assoc.
Qed.

Lemma QueryDataFromDatabase_scans g resType resNames datas :
  QueryDataFromDatabase Row_json QueryAllMeta QueryMeta ParseResourceEdge
    g resType resNames = OK datas →
  ∃ scans,
    Forall2 (λ t rows, QueryAllMeta "type" t = OK rows) (scanned resType) scans ∧
    datas = filter (λ v, retained ParseResourceEdge g (Namespace g) resNames v = true) (concat scans).
Proof.
  unfold QueryDataFromDatabase, scanned. intros H.
  case_bool_decide.
  { unfold getPodsFromDatabase in H.
    destruct (QueryAllMeta "type" model.ResourceTypePod) as [rows| |] eqn:Hq;
      cbn in H; [|done..].
    destruct (status_loop _ _ _ _ _ _ _ _ _ _ _ _) as [out| |] eqn:Hl;
      cbn in H; [|done..].
    injection H as <-. apply status_loop_filter in Hl as ->.
    exists [rows]. split; [by repeat constructor|]. cbn. by rewrite app_nil_r. }
  case_bool_decide.
  { unfold getNodeFromDatabase in H.
    destruct (QueryAllMeta "type" model.ResourceTypeNode) as [rows| |] eqn:Hq;
      cbn in H; [|done..].
    destruct (status_loop _ _ _ _ _ _ _ _ _ _ _ _) as [out| |] eqn:Hl;
      cbn in H; [|done..].
    injection H as <-. apply status_loop_filter in Hl as ->.
    exists [rows]. split; [by repeat constructor|]. cbn. by rewrite app_nil_r. }
  case_bool_decide.
  { unfold getSingleResourceFromDatabase in H.
    destruct (QueryAllMeta "type" resType) as [rows| |] eqn:Hq; cbn in H; [|done..].
    injection H as <-. rewrite single_loop_filter.
    exists [rows]. split; [by repeat constructor|]. cbn. by rewrite app_nil_r. }
  case_bool_decide; [|done].
  unfold getPodsFromDatabase, getNodeFromDatabase in H.
  destruct (QueryAllMeta "type" model.ResourceTypePod) as [pods| |] eqn:Hp;
    cbn [mbind outcome_bind] in H; [|done..].
  destruct (status_loop _ _ _ _ _ _ _ _ pods _ _ _) as [out1| |] eqn:Hl1;
    cbn [mbind outcome_bind] in H; [|done..].
  destruct (QueryAllMeta "type" model.ResourceTypeNode) as [nodes| |] eqn:Hn;
    cbn [mbind outcome_bind] in H; [|done..].
  destruct (status_loop _ _ _ _ _ _ _ _ nodes _ _ _) as [out2| |] eqn:Hl2;
    cbn [mbind outcome_bind] in H; [|done..].
  apply status_loop_filter in Hl1 as ->. apply status_loop_filter in Hl2 as ->.
  apply all_loop_scans in H as (scans & Hs & ->).
  exists (pods :: nodes :: scans). split; [by repeat constructor|].
  cbn [concat app]. by rewrite !filter_app, <- app_assoc.
Qed.


End RetrievalProperties.


(** C1, on a store that holds a pod (a node) and its status record: the
    query ends in a decoding error instead of returning the merged record.
    Without the status record the base record comes back as it is. *)
Theorem status_merge_aborts :
  query [pod_web; podstatus_web] (in_namespace "default") "pod" [] = Err ErrUnmarshal ∧
  query [node_edge; nodestatus_edge] (in_namespace "default") "node" [] = Err ErrUnmarshal ∧
  query [pod_web] (in_namespace "default") "pod" [] = OK [pod_web] ∧
  query [node_edge] (in_namespace "default") "node" [] = OK [node_edge].
Proof. repeat split; vm_compute; reflexivity. Qed.

(** C2: a node record, as the [all] query returns it, is outside the five
    cases of both reconstruction passes, which end in the unrecognized-type
    error whatever follows the record and whatever the field decoders. *)
Theorem node_records_unrecognized :
  query [node_edge] (in_namespace "default") "all" [] = OK [node_edge] ∧
  ∀ (Typed : Type) (Unmarshal_field : package → field → json → outcome Typed)
    (rest : list Meta),
    ParseMetaToV1List Unmarshal_field (node_edge :: rest)
      = Err (ErrParsingUnrecognizedType "node") ∧
    ParseMetaToAPIList Unmarshal_field (node_edge :: rest)
      = Err (ErrParsingUnrecognizedType "node").
Proof. split; [vm_compute; reflexivity|]. intros. split; reflexivity. Qed.

(** A block with one item prints the item; a block with more appends its
    items to the list that the earlier blocks have filled, and prints all
    of it. *)
Lemma print_block_single {Typed A} (wrap : A → Object Typed) (info : A)
    (list_items : list (Object Typed)) (out : list (Printed Typed)) :
  print_block wrap [info] (list_items, out) =
  (list_items, out ++ [PrintedObject (wrap info)]).
Proof. reflexivity. Qed.

Lemma print_block_several {Typed A} (wrap : A → Object Typed) (x y : A)
    (items : list A) (list_items : list (Object Typed))
    (out : list (Printed Typed)) :
  print_block wrap (x :: y :: items) (list_items, out) =
  (list_items ++ (wrap <$> x :: y :: items),
   out ++ [PrintedList (mkTypeMeta "List" "v1")
             (list_items ++ (wrap <$> x :: y :: items))]).
Proof. reflexivity. Qed.

(** C3: two pods and two services.  The second list that is printed holds
    the two pods in front of the two services. *)
Theorem JSONYamlPrint_list_accumulates :
  ∃ p1 p2 s1 s2,
    JSONYamlPrint Store.Unmarshal_field [pod_full; pod_web; svc_a; svc_b] =
    OK [ PrintedList (mkTypeMeta "List" "v1") [PodObject p1; PodObject p2];
         PrintedList (mkTypeMeta "List" "v1")
           [PodObject p1; PodObject p2; ServiceObject s1; ServiceObject s2] ].
Proof. do 4 eexists. vm_compute. reflexivity. Qed.

(** C4: the aliases that are not themselves a type name pass validation of
    the resource type, and the query, which switches on the argument as it
    was typed, has no case for them. *)
Theorem aliases_not_resolved :
  Forall
    (λ alias,
       IsAvailableResources alias = true ∧
       ∀ (Row : Type) (Row_json : Row → json)
         (QueryAllMeta : string → string → outcome (list Meta))
         (QueryMeta : string → string → outcome (list Row))
         (ParseResourceEdge : string → string → string * string * string * option error)
         (g : GetOptions) (resNames : list string),
         QueryDataFromDatabase Row_json QueryAllMeta QueryMeta ParseResourceEdge
           g alias resNames = Err (ErrQueryFailed alias (Namespace g)))
    ["po"; "pods"; "svc"; "services"; "secrets"; "cm"; "configmaps"; "ep"; "endpoint"].
Proof. repeat constructor; vm_compute; reflexivity. Qed.

(** C8: a pod without a [status] section after a pod with one, and a secret
    without [data] and [type] after a secret with them, take these sections
    from the earlier record; alone they have none. *)
Theorem reconstruction_keeps_earlier_sections :
  (lists ← ParseMetaToV1List Store.Unmarshal_field [pod_full; pod_web];
   OK (pod_Status <$> podList lists)) = OK [running; running] ∧
  (lists ← ParseMetaToV1List Store.Unmarshal_field [pod_web];
   OK (pod_Status <$> podList lists)) = OK [JNull] ∧
  (lists ← ParseMetaToAPIList Store.Unmarshal_field [pod_full; pod_web];
   OK (pod_Status <$> podList lists)) = OK [running; running] ∧
  (lists ← ParseMetaToAPIList Store.Unmarshal_field [pod_web];
   OK (pod_Status <$> podList lists)) = OK [JNull] ∧
  (lists ← ParseMetaToV1List Store.Unmarshal_field [secret_full; secret_bare];
   OK (secret_Data <$> secretList lists)) =
    OK [JObject [("key", JString "c2VjcmV0")]; JObject [("key", JString "c2VjcmV0")]] ∧
  (lists ← ParseMetaToV1List Store.Unmarshal_field [secret_bare];
   OK (secret_Data <$> secretList lists)) = OK [JNull].
Proof. repeat split; vm_compute; reflexivity. Qed.

(** ** Validation of the resource type *)

Lemma IsAvailableResources_table :
  Forall (λ rsT, IsAvailableResources rsT = true)
    ["all"; "po"; "pod"; "pods"; "svc"; "service"; "services"; "secret";
     "secrets"; "cm"; "configmap"; "configmaps"; "ep"; "endpoint"; "endpoints"].
Proof. repeat constructor. Qed.

Lemma IsAvailableResources_keys rsT :
  IsAvailableResources rsT = true ↔
  rsT ∈ ["all"; "po"; "pod"; "pods"; "svc"; "service"; "services"; "secret";
         "secrets"; "cm"; "configmap"; "configmaps"; "ep"; "endpoint"; "endpoints"].
Proof.
  unfold IsAvailableResources. rewrite bool_decide_eq_true. split.
  - intros [x Hx]. unfold availableResources in Hx.
    apply elem_of_list_to_map_2 in Hx.
    exact (list_elem_of_fmap_2 fst _ _ Hx).
  - intros H.
    pose proof IsAvailableResources_table as Ht.
    rewrite Forall_forall in Ht. apply Ht in H.
    unfold IsAvailableResources in H. by apply bool_decide_eq_true in H.
Qed.

(** An argument outside the table is rejected before anything else is
    looked at. *)
Lemma Validate_outside_table IsFileExist InitDB g rsT names :
  IsAvailableResources rsT = false →
  Validate IsFileExist InitDB g (rsT :: names) = Err (ErrUnrecognizedResourceType rsT).
Proof. intros H. unfold Validate. by rewrite H. Qed.

(** * Further properties *)

(** ** The selector parser *)

Lemma parse_labels_clauses labels : parse_labels labels = clauses_of labels.
Proof.
  unfold parse_labels. rewrite split_labels_clauses.
  destruct (clauses_of labels); reflexivity.
Qed.

Lemma clauses_of_app pre post :
  clauses_of (pre ++ post) =
  (cs ← clauses_of pre; cs' ← clauses_of post; OK (cs ++ cs')).
Proof.
  induction pre as [|t pre IH]; cbn [app clauses_of].
  { cbn. destruct (clauses_of post); reflexivity. }
  destruct (term_clause t) as [c| |]; cbn; [|done..].
  rewrite IH. destruct (clauses_of pre) as [cs| |]; cbn; [|done..].
  destruct (clauses_of post) as [cs'| |]; cbn; [|done..].
  by rewrite app_assoc.
Qed.










(** X2: the first term that has an operator and does not split on it into
    two sides ends the parse with the error of that operator, whatever the
    terms after it are, once the terms before it have parsed. *)
Theorem SplitSelectorParameters_first_bad_term
    (args : string) (pre post : list string) (term op : string)
    (e : bool) (cs : list Selector) :
  strings.Split args "," = pre ++ term :: post →
  parse_labels pre = OK cs →
  first_operator term = Some (op, e) →
  length (strings.Split term op) ≠ 2 →
  SplitSelectorParameters args = Err (ErrSelector op).
Proof.
  intros Hs Hpre Hop Hlen. unfold SplitSelectorParameters.
  rewrite Hs, parse_labels_clauses, clauses_of_app.
  rewrite parse_labels_clauses in Hpre. rewrite Hpre. cbn [mbind outcome_bind].
  cbn [clauses_of]. unfold term_clause. rewrite Hop.
  by destruct (strings.Split term op) as [|k [|v [|? ?]]].
Qed.

Lemma SplitSelectorParameters_first_bad_term_witness :
  SplitSelectorParameters "a=b,c=d=e,f!=g!=h" = Err (ErrSelector "=").
Proof.
  apply (SplitSelectorParameters_first_bad_term
           "a=b,c=d=e,f!=g!=h" ["a=b"] ["f!=g!=h"] "c=d=e" "=" true
           [mkSelector "a" "b" true]);
    [reflexivity|reflexivity|reflexivity|vm_compute; lia].
Defined.

(** ** The selector filter *)

Lemma filter_loop_sublist clauses data jsonValue results out :
  filter_loop clauses data jsonValue results = OK out →
  ∃ kept, out = results ++ kept ∧ kept `sublist_of` data.
Proof.
  revert jsonValue results.
  induction data as [|v rest IH]; intros jsonValue results H;
    cbn [filter_loop] in H.
  { injection H as <-. exists []. by rewrite app_nil_r. }
  destruct (Unmarshal_map (Value v) jsonValue) as [jv| |];
    cbn [mbind outcome_bind] in H; [|done..].
  destruct (assert_map (index jv "metadata")) as [md| |];
    cbn [mbind outcome_bind] in H; [|done..].
  destruct (is_nil (index md "labels")).
  { apply IH in H as (kept & -> & Hs). exists (v :: kept).
    split; [by rewrite <- app_assoc|by constructor]. }
  destruct (match_labels (index md "labels") clauses true) as [[|]| |];
    cbn [mbind outcome_bind] in H; [| |done..].
  - apply IH in H as (kept & -> & Hs). exists (v :: kept).
    split; [by rewrite <- app_assoc|by constructor].
  - apply IH in H as (kept & -> & Hs). exists kept.
    split; [done|by apply sublist_cons].
Qed.

(** X3: whatever the documents are, a filter that returns gives a sub-list
    of its input: the records it keeps are unchanged and in their order,
    and none is added or repeated. *)
Theorem FilterSelector_sublist
    (data : list Meta) (selector : string) (out : list Meta) :
  FilterSelector data selector = OK out → out `sublist_of` data.
Proof.
  unfold FilterSelector. intros H.
  destruct (SplitSelectorParameters selector) as [clauses| |];
    cbn [mbind outcome_bind] in H; [|done..].
  by apply filter_loop_sublist in H as (kept & -> & Hs).
Qed.

Lemma FilterSelector_sublist_witness :
  FilterSelector candidates "env=prod,tier!=cache" =
    OK (filter (selected [mkSelector "env" "prod" true;
                          mkSelector "tier" "cache" false]) candidates) ∧
  filter (selected [mkSelector "env" "prod" true;
                    mkSelector "tier" "cache" false]) candidates
    `sublist_of` candidates.
Proof.
  assert (H : FilterSelector candidates "env=prod,tier!=cache" =
    OK (filter (selected [mkSelector "env" "prod" true;
                          mkSelector "tier" "cache" false]) candidates))
    by (vm_compute; reflexivity).
  split; [exact H|].
  exact (FilterSelector_sublist candidates "env=prod,tier!=cache" _ H).
Defined.

Lemma filter_loop_no_clause data jsonValue results :
  Forall has_metadata data →
  filter_loop [] data jsonValue results = OK (results ++ data).
Proof.
  intros Hm. revert jsonValue results.
  induction Hm as [|v rest (members & metadata & Hv & Hmd) _ IH];
    intros jsonValue results.
  { cbn. by rewrite app_nil_r. }
  cbn [filter_loop]. rewrite Hv. cbn [Unmarshal_map mbind outcome_bind].
  rewrite (index_after_Unmarshal _ _ _ _ Hmd).
  cbn [assert_map mbind outcome_bind match_labels].
  destruct (is_nil _); by rewrite IH, <- app_assoc.
Qed.

(** X4: a selector none of whose terms has an operator filters nothing:
    every record whose document has an object [metadata] member is kept,
    whatever its labels are. *)
Theorem FilterSelector_no_clause (data : list Meta) (selector : string) :
  SplitSelectorParameters selector = OK [] →
  Forall has_metadata data →
  FilterSelector data selector = OK data.
Proof.
  intros Hp Hm. unfold FilterSelector. rewrite Hp. cbn [mbind outcome_bind].
  by rewrite filter_loop_no_clause.
Qed.

Lemma candidates_well_formed : Forall labels_well_formed candidates.
Proof.
  unfold candidates, labelled.
  repeat (apply Forall_cons; split); try apply Forall_nil;
    do 2 eexists; (split; [reflexivity|]); (split; [vm_compute; reflexivity|]).
  - right; right. eexists. vm_compute. reflexivity.
  - right; right. eexists. vm_compute. reflexivity.
  - left. vm_compute. reflexivity.
  - right; right. eexists. vm_compute. reflexivity.
  - right; left. vm_compute. reflexivity.
Defined.

Lemma labels_well_formed_has_metadata r : labels_well_formed r → has_metadata r.
Proof. intros (members & metadata & ? & ? & _). by exists members, metadata. Defined.

Lemma FilterSelector_no_clause_witness :
  SplitSelectorParameters "plain,words" = OK [] ∧
  Forall has_metadata candidates ∧
  FilterSelector candidates "plain,words" = OK candidates.
Proof.
  assert (Hm : Forall has_metadata candidates).
  { eapply Forall_impl; [exact candidates_well_formed|].
    exact labels_well_formed_has_metadata. }
  split; [reflexivity|]. split; [exact Hm|].
  exact (FilterSelector_no_clause candidates "plain,words" eq_refl Hm).
Defined.

Lemma filter_loop_step clauses v rest jsonValue results :
  labels_well_formed v →
  ∃ jv, filter_loop clauses (v :: rest) jsonValue results =
        filter_loop clauses rest jv (results ++ filter (selected clauses) [v]).
Proof.
  intros (members & metadata & Hv & Hm & Hl).
  exists (Some (store_members members (default ∅ jsonValue))).
  cbn [filter_loop]. rewrite Hv. cbn [Unmarshal_map mbind outcome_bind].
  rewrite (index_after_Unmarshal _ _ _ _ Hm).
  cbn [assert_map mbind outcome_bind]. unfold index.
  destruct Hl as [Hl|[Hl|[labels Hl]]]; rewrite Hl; cbn [from_option id is_nil].
  - rewrite filter_cons_True; [done|].
    apply selected_without_labels. unfold record_labels. by rewrite Hv, Hm, Hl.
  - rewrite filter_cons_True; [done|].
    apply selected_without_labels. unfold record_labels. by rewrite Hv, Hm, Hl.
  - assert (Hr : record_labels v = Some (object_map labels)).
    { unfold record_labels. by rewrite Hv, Hm, Hl. }
    rewrite match_labels_object. cbn [andb mbind outcome_bind].
    destruct (decide (Forall (clause_holds (object_map labels)) clauses)) as [Hf|Hf].
    + rewrite bool_decide_eq_true_2 by done.
      rewrite filter_cons_True; [done|]. unfold selected. by rewrite Hr.
    + rewrite bool_decide_eq_false_2 by done.
      rewrite filter_cons_False; [by rewrite app_nil_r|].
      unfold selected. by rewrite Hr.
Qed.

Lemma filter_loop_prefix clauses pre rest jsonValue results :
  Forall labels_well_formed pre →
  ∃ jv, filter_loop clauses (pre ++ rest) jsonValue results =
        filter_loop clauses rest jv (results ++ filter (selected clauses) pre).
Proof.
  intros Hwf. revert jsonValue results.
  induction Hwf as [|v pre Hv _ IH]; intros jsonValue results.
  { exists jsonValue. cbn. by rewrite app_nil_r. }
  destruct (filter_loop_step clauses v (pre ++ rest) jsonValue results Hv)
    as [jv Hstep].
  destruct (IH jv (results ++ filter (selected clauses) [v])) as [jv' Hrest].
  exists jv'. cbn [app]. rewrite Hstep, Hrest. f_equal.
  rewrite <- app_assoc. f_equal.
  change (v :: pre) with ([v] ++ pre). by rewrite filter_app.
Qed.

(** X5: a record whose text does not decode into a map ends the filter
    with the decoding error, whatever was kept of the records before it
    and whatever follows it. *)
Theorem FilterSelector_decode_error
    (pre post : list Meta) (v : Meta) (selector : string)
    (clauses : list Selector) :
  SplitSelectorParameters selector = OK clauses →
  Forall labels_well_formed pre →
  undecodable (Value v) →
  FilterSelector (pre ++ v :: post) selector = Err ErrUnmarshal.
Proof.
  intros Hp Hwf Hv. unfold FilterSelector. rewrite Hp.
  cbn [mbind outcome_bind].
  destruct (filter_loop_prefix clauses pre (v :: post) make_map [] Hwf)
    as [jv ->].
  cbn [filter_loop]. unfold undecodable in Hv.
  destruct (Value v) as [s|[]]; cbn; done.
Qed.

Lemma FilterSelector_decode_error_witness :
  FilterSelector
    (candidates ++ mkMeta "default/pod/x" "pod" (Doc (JArray [])) :: candidates)
    "env=prod" = Err ErrUnmarshal.
Proof.
  apply (FilterSelector_decode_error candidates candidates
           (mkMeta "default/pod/x" "pod" (Doc (JArray []))) "env=prod"
           [mkSelector "env" "prod" true]).
  - reflexivity.
  - exact candidates_well_formed.
  - exact I.
Defined.

Lemma FilterSelector_selected_by data selector clauses :
  SplitSelectorParameters selector = OK clauses →
  Forall labels_well_formed data →
  FilterSelector data selector = OK (filter (selected clauses) data).
Proof.
  intros Hp Hwf. unfold FilterSelector. rewrite Hp. cbn [mbind outcome_bind].
  by rewrite filter_loop_selected.
Qed.

Lemma Forall_well_formed_filter clauses data :
  Forall labels_well_formed data →
  Forall labels_well_formed (filter (selected clauses) data).
Proof.
  rewrite !Forall_forall. intros H r Hr.
  apply list_elem_of_filter in Hr as [_ Hr]. by apply H.
Qed.

Lemma selected_app c1 c2 r :
  selected (c1 ++ c2) r ↔ selected c2 r ∧ selected c1 r.
Proof.
  unfold selected. destruct (record_labels r); [|tauto].
  rewrite Forall_app. tauto.
Qed.

Lemma HasPrefix_comma c s :
  strings.HasPrefix (String c s) "," = bool_decide (c = ","%char).
Proof.
  unfold strings.HasPrefix. cbn [String.prefix].
  destruct (ascii_dec "," c) as [<-|Hne].
  - rewrite bool_decide_eq_true_2 by done. by destruct s.
  - by rewrite bool_decide_eq_false_2 by congruence.
Qed.

Lemma split_from_comma s1 s2 cur :
  strings.split_from "," (s1 +:+ "," +:+ s2) 0 cur =
  strings.split_from "," s1 0 cur ++ strings.split_from "," s2 0 "".
Proof.
  revert cur. induction s1 as [|c s1 IH]; intros cur.
  { rewrite append_empty_l. change ("," +:+ s2) with (String "," s2).
    cbn [strings.split_from]. rewrite HasPrefix_comma.
    by rewrite bool_decide_eq_true_2. }
  rewrite append_cons. cbn [strings.split_from]. rewrite !HasPrefix_comma.
  case_bool_decide; by rewrite IH.
Qed.

(** Cutting at the commas commutes with joining two expressions by a
    comma. *)
Lemma Split_comma_app s1 s2 :
  strings.Split (s1 +:+ "," +:+ s2) "," =
  strings.Split s1 "," ++ strings.Split s2 ",".
Proof. apply split_from_comma. Qed.

(** X6: the comma is a conjunction.  Filtering by two expressions joined by
    a comma is filtering by the first and then filtering what it kept by the
    second. *)
Theorem FilterSelector_comma
    (data : list Meta) (s1 s2 : string) (c1 c2 : list Selector) :
  SplitSelectorParameters s1 = OK c1 →
  SplitSelectorParameters s2 = OK c2 →
  Forall labels_well_formed data →
  FilterSelector data (s1 +:+ "," +:+ s2) =
  (kept ← FilterSelector data s1; FilterSelector kept s2).
Proof.
  intros H1 H2 Hwf.
  assert (H12 : SplitSelectorParameters (s1 +:+ "," +:+ s2) = OK (c1 ++ c2)).
  { unfold SplitSelectorParameters in *.
    rewrite parse_labels_clauses in *. rewrite Split_comma_app, clauses_of_app.
    by rewrite H1, H2. }
  rewrite (FilterSelector_selected_by data _ _ H12 Hwf).
  rewrite (FilterSelector_selected_by data _ _ H1 Hwf). cbn [mbind outcome_bind].
  rewrite (FilterSelector_selected_by _ _ _ H2 (Forall_well_formed_filter _ _ Hwf)).
  f_equal. rewrite list_filter_filter. apply list_filter_iff.
  intros r. apply selected_app.
Qed.

Lemma FilterSelector_comma_witness :
  FilterSelector candidates "env=prod,tier!=cache" =
  (kept ← FilterSelector candidates "env=prod"; FilterSelector kept "tier!=cache").
Proof.
  exact (FilterSelector_comma candidates "env=prod" "tier!=cache"
           [mkSelector "env" "prod" true] [mkSelector "tier" "cache" false]
           eq_refl eq_refl candidates_well_formed).
Defined.

(** ** Record retrieval *)

Lemma IsExistName_fold resNames name acc :
  foldl (λ (value : bool) v, if strings.Contains name v then true else value)
    acc resNames = true ↔
  acc = true ∨ ∃ v, v ∈ resNames ∧ strings.Contains name v = true.
Proof.
  revert acc. induction resNames as [|n resNames IH]; intros acc; cbn [foldl].
  { split; [by left|]. intros [?|(v & Hv & _)]; [done|]. by apply elem_of_nil in Hv. }
  rewrite IH. split.
  - intros [H|(v & Hv & Hc)].
    + destruct (strings.Contains name n) eqn:Hn; [|by left].
      right. exists n. split; [apply list_elem_of_here|done].
    + right. exists v. split; [by apply list_elem_of_further|done].
  - intros [->|(v & Hv & Hc)].
    + left. by destruct (strings.Contains name n).
    + apply elem_of_cons in Hv as [->|Hv].
      * left. by rewrite Hc.
      * right. by exists v.
Qed.

(** X7: [IsExistName] says whether one of the names occurs in the key, at
    any place; with no name it says no. *)
Theorem IsExistName_substring (resNames : list string) (name : string) :
  IsExistName resNames name = true ↔
  ∃ v, v ∈ resNames ∧ strings.Contains name v = true.
Proof.
  unfold IsExistName. rewrite IsExistName_fold. split; [|by right].
  by intros [?|?].
Qed.

Lemma Replace1_here s old new :
  strings.HasPrefix s old = true →
  strings.Replace1 s old new = new +:+ strings.drop (String.length old) s.
Proof. intros H. destruct s; cbn [strings.Replace1]; by rewrite H. Qed.

Lemma Replace1_later c s old new :
  strings.HasPrefix (String c s) old = false →
  strings.Replace1 (String c s) old new = String c (strings.Replace1 s old new).
Proof. intros H. cbn [strings.Replace1]. by rewrite H. Qed.

Lemma HasPrefix_append pre s : strings.HasPrefix (pre +:+ s) pre = true.
Proof.
  unfold strings.HasPrefix. induction pre as [|c pre IH]; [by destruct s|].
  rewrite append_cons. cbn [String.prefix]. by destruct (ascii_dec c c).
Qed.

Lemma drop_append pre s : strings.drop (String.length pre) (pre +:+ s) = s.
Proof.
  induction pre as [|c pre IH]; [by destruct s|].
  rewrite append_cons. cbn [String.length strings.drop]. apply IH.
Qed.

Lemma Contains_cons_false c s sub :
  strings.Contains (String c s) sub = false →
  strings.HasPrefix (String c s) sub = false ∧ strings.Contains s sub = false.
Proof. cbn [strings.Contains]. apply orb_false_iff. Qed.

(** X8: for a key of the layout namespace, separator, type, separator,
    name whose namespace holds no separator, the status key is the same key
    with the status type in place of the type: the name is untouched, also
    when it contains the type segment itself. *)
Theorem status_key_layout (ns name resType statusType : string) :
  strings.Contains ns constants.ResourceSep = false →
  status_key resType statusType
    (ns +:+ constants.ResourceSep +:+ resType +:+ constants.ResourceSep +:+ name) =
  ns +:+ constants.ResourceSep +:+ statusType +:+ constants.ResourceSep +:+ name.
Proof.
  unfold status_key, constants.ResourceSep. intros Hns.
  induction ns as [|c ns IH].
  - rewrite !append_empty_l.
    replace ("/" +:+ resType +:+ "/" +:+ name)
      with (("/" +:+ resType +:+ "/") +:+ name)
      by (by rewrite !append_assoc).
    rewrite Replace1_here by apply HasPrefix_append.
    rewrite drop_append. by rewrite !append_assoc.
  - apply Contains_cons_false in Hns as [Hc Hns].
    rewrite !append_cons. rewrite Replace1_later.
    + f_equal. by apply IH.
    + unfold strings.HasPrefix in *. cbn [String.prefix] in *.
      change ("/" +:+ resType +:+ "/") with (String "/" (resType +:+ "/")).
      cbn [String.prefix]. destruct (ascii_dec "/" c); [|done].
      by destruct ns.
Qed.

Lemma status_key_layout_witness :
  status_key "pod" "podstatus" "default/pod/web/pod/1" = "default/podstatus/web/pod/1".
Proof.
  exact (status_key_layout "default" "web/pod/1" "pod" "podstatus" eq_refl).
Defined.

Section RetrievalFurther.

Context {Row : Type}.
Variable Row_json : Row → json.
Variable QueryAllMeta : string → string → outcome (list Meta).
Variable QueryMeta : string → string → outcome (list Row).
Variable ParseResourceEdge :
  string → string → string * string * string * option error.

(** X9: a query that returns gives exactly the scanned records that pass
    the namespace test and the name test, unchanged: those of the one type
    asked for, in scan order, and for [all] those of pod, node, configmap,
    secret, endpoints and service, in this order of the types. *)
Theorem QueryDataFromDatabase_result
    (g : GetOptions) (resType : string) (resNames : list string)
    (datas : list Meta) :
  QueryDataFromDatabase Row_json QueryAllMeta QueryMeta ParseResourceEdge
    g resType resNames = OK datas →
  ∃ scans,
    Forall2 (λ t rows, QueryAllMeta "type" t = OK rows) (scanned resType) scans ∧
    datas = filter (λ v, retained ParseResourceEdge g (Namespace g) resNames v = true)
              (concat scans).
Proof. apply QueryDataFromDatabase_scans. Qed.

(** X10: no partial result.  When the scan of one of the types that the
    query reads fails, the query does not return records, also not those of
    the types scanned before. *)
Theorem QueryDataFromDatabase_scan_error
    (g : GetOptions) (resType : string) (resNames : list string)
    (t : string) (e : error) :
  t ∈ scanned resType →
  QueryAllMeta "type" t = Err e →
  ∀ datas,
    QueryDataFromDatabase Row_json QueryAllMeta QueryMeta ParseResourceEdge
      g resType resNames ≠ OK datas.
Proof.
  intros Ht He datas H.
  apply QueryDataFromDatabase_scans in H as (scans & Hs & _).
  apply list_elem_of_lookup in Ht as [i Hi].
  destruct (Forall2_lookup_l _ _ _ _ _ Hs Hi) as (rows & _ & Hq).
  congruence.
Qed.

(** X11: an argument that is none of pod, node, configmap, secret,
    endpoints, service and all is answered by the query error, without a
    look at the store. *)
Theorem QueryDataFromDatabase_not_dispatched
    (g : GetOptions) (resType : string) (resNames : list string) :
  resType ∉ dispatched →
  QueryDataFromDatabase Row_json QueryAllMeta QueryMeta ParseResourceEdge
    g resType resNames = Err (ErrQueryFailed resType (Namespace g)).
Proof.
  unfold dispatched, QueryDataFromDatabase. intros H.
  repeat case_bool_decide; try done; exfalso; apply H;
    rewrite ?elem_of_cons in *; tauto.
Qed.

Lemma status_loop_returns g resNS resNames resType statusType records
    baseJSON statusJSON results out :
  status_loop Row_json QueryMeta ParseResourceEdge g resNS resNames
    resType statusType records baseJSON statusJSON results = OK out ↔
  out = results ++
        filter (λ v, retained ParseResourceEdge g resNS resNames v = true) records ∧
  Forall (λ v, QueryMeta "key" (status_key resType statusType (Key v)) = OK [])
    (filter (λ v, retained ParseResourceEdge g resNS resNames v = true) records).
Proof.
  revert baseJSON statusJSON results.
  induction records as [|v rest IH]; intros baseJSON statusJSON results.
  { cbn. rewrite app_nil_r. split; [by intros [= <-]|by intros [-> _]]. }
  destruct (retained ParseResourceEdge g resNS resNames v) eqn:Hr.
  - rewrite filter_cons_True by done.
    pose proof Hr as Hr'. unfold retained in Hr'.
    apply andb_true_iff in Hr' as [Hns Hn]. apply negb_true_iff in Hns, Hn.
    rewrite Forall_cons.
    destruct (QueryMeta "key" (status_key resType statusType (Key v)))
      as [[|row rows]| |] eqn:Hq.
    + cbn [status_loop]. rewrite Hns, Hn. unfold status_key in Hq. rewrite Hq.
      cbn [mbind outcome_bind length Nat.leb]. rewrite IH, <- app_assoc.
      cbn [app]. tauto.
    + rewrite (status_loop_aborts _ _ _ _ _ _ _ _ _ _ _ _ _ (row :: rows));
        [|done|exact Hq|done].
      split; [done|]. by intros [_ [? _]].
    + cbn [status_loop]. rewrite Hns, Hn. unfold status_key in Hq. rewrite Hq.
      cbn [mbind outcome_bind]. split; [done|]. by intros [_ [? _]].
    + cbn [status_loop]. rewrite Hns, Hn. unfold status_key in Hq. rewrite Hq.
      cbn [mbind outcome_bind]. split; [done|]. by intros [_ [? _]].
  - rewrite filter_cons_False by (by rewrite Hr).
    unfold retained in Hr. cbn [status_loop].
    destruct (skip_namespace ParseResourceEdge g resNS v); [apply IH|].
    destruct (skip_name resNames v); [apply IH|done].
Qed.

(** X12: [getPodsFromDatabase] and [getNodeFromDatabase] return exactly
    when the scan succeeds and the status lookup of every record that passes
    the two tests succeeds and finds nothing; they return these records as
    they were scanned. *)
Theorem getPodsFromDatabase_returns
    (g : GetOptions) (resNS : string) (resNames : list string)
    (out : list Meta) :
  (getPodsFromDatabase Row_json QueryAllMeta QueryMeta ParseResourceEdge
     g resNS resNames = OK out ↔
   ∃ podRecords,
     QueryAllMeta "type" model.ResourceTypePod = OK podRecords ∧
     out = filter (λ v, retained ParseResourceEdge g resNS resNames v = true)
             podRecords ∧
     Forall (λ v, QueryMeta "key"
                    (status_key model.ResourceTypePod model.ResourceTypePodStatus
                       (Key v)) = OK [])
       (filter (λ v, retained ParseResourceEdge g resNS resNames v = true)
          podRecords)) ∧
  (getNodeFromDatabase Row_json QueryAllMeta QueryMeta ParseResourceEdge
     g resNS resNames = OK out ↔
   ∃ nodeRecords,
     QueryAllMeta "type" model.ResourceTypeNode = OK nodeRecords ∧
     out = filter (λ v, retained ParseResourceEdge g resNS resNames v = true)
             nodeRecords ∧
     Forall (λ v, QueryMeta "key"
                    (status_key model.ResourceTypeNode model.ResourceTypeNodeStatus
                       (Key v)) = OK [])
       (filter (λ v, retained ParseResourceEdge g resNS resNames v = true)
          nodeRecords)).
Proof.
  unfold getPodsFromDatabase, getNodeFromDatabase. split.
  - destruct (QueryAllMeta "type" model.ResourceTypePod) as [rows| |];
      cbn [mbind outcome_bind].
    + rewrite status_loop_returns. cbn [app]. split.
      * intros [-> ?]. by exists rows.
      * by intros (? & [= <-] & -> & ?).
    + split; [done|]. by intros (? & ? & _).
    + split; [done|]. by intros (? & ? & _).
  - destruct (QueryAllMeta "type" model.ResourceTypeNode) as [rows| |];
      cbn [mbind outcome_bind].
    + rewrite status_loop_returns. cbn [app]. split.
      * intros [-> ?]. by exists rows.
      * by intros (? & [= <-] & -> & ?).
    + split; [done|]. by intros (? & ? & _).
    + split; [done|]. by intros (? & ? & _).
Qed.

(** X13: names are matched as substrings of the whole key.  When names are
    given, every record that a query returns has one of them somewhere in
    its key. *)
Theorem QueryDataFromDatabase_names
    (g : GetOptions) (resType : string) (resNames : list string)
    (datas : list Meta) :
  QueryDataFromDatabase Row_json QueryAllMeta QueryMeta ParseResourceEdge
    g resType resNames = OK datas →
  resNames ≠ [] →
  ∀ r, r ∈ datas → ∃ v, v ∈ resNames ∧ strings.Contains (Key r) v = true.
Proof.
  intros H Hne r Hr.
  apply QueryDataFromDatabase_scans in H as (scans & _ & ->).
  apply list_elem_of_filter in Hr as [Hr _]. unfold retained in Hr.
  apply andb_true_iff in Hr as [_ Hr]. apply negb_true_iff in Hr.
  unfold skip_name in Hr. destruct resNames as [|n resNames]; [done|].
  cbn [length Nat.ltb Nat.leb andb] in Hr. apply negb_false_iff in Hr.
  by apply IsExistName_fold in Hr as [?|?].
Qed.

End RetrievalFurther.

Lemma QueryDataFromDatabase_result_witness :
  query sample_store (in_namespace "default") "all" [] =
    OK [pod_web; node_edge; svc_a] ∧
  ∃ scans,
    Forall2 (λ t rows, Store.QueryAllMeta sample_store "type" t = OK rows)
      (scanned "all") scans ∧
    [pod_web; node_edge; svc_a] =
    filter (λ v, retained Store.ParseResourceEdge (in_namespace "default")
                   "default" [] v = true) (concat scans).
Proof.
  assert (H : query sample_store (in_namespace "default") "all" [] =
              OK [pod_web; node_edge; svc_a]) by (vm_compute; reflexivity).
  split; [exact H|].
  exact (QueryDataFromDatabase_result Store.Row_json
           (Store.QueryAllMeta sample_store) (Store.QueryMeta sample_store)
           Store.ParseResourceEdge (in_namespace "default") "all" [] _ H).
Defined.

Lemma QueryDataFromDatabase_scan_error_witness :
  "secret" ∈ scanned "all" ∧
  QueryAllMeta_failing "secret" sample_store "type" "secret"
    = Err (ErrStore "database is locked") ∧
  ∀ datas,
    QueryDataFromDatabase Store.Row_json
      (QueryAllMeta_failing "secret" sample_store) (Store.QueryMeta sample_store)
      Store.ParseResourceEdge (in_namespace "default") "all" [] ≠ OK datas.
Proof.
  assert (Hin : "secret" ∈ scanned "all").
  { vm_compute. do 3 apply list_elem_of_further. apply list_elem_of_here. }
  split; [exact Hin|]. split; [reflexivity|].
  exact (QueryDataFromDatabase_scan_error Store.Row_json
           (QueryAllMeta_failing "secret" sample_store)
           (Store.QueryMeta sample_store) Store.ParseResourceEdge
           (in_namespace "default") "all" [] "secret"
           (ErrStore "database is locked") Hin eq_refl).
Defined.

Lemma QueryDataFromDatabase_not_dispatched_witness :
  ("widget" ∉ dispatched) ∧
  query sample_store (in_namespace "default") "widget" [] =
    Err (ErrQueryFailed "widget" "default").
Proof.
  assert (H : "widget" ∉ dispatched).
  { unfold dispatched. rewrite !not_elem_of_cons.
    repeat split; try discriminate. apply not_elem_of_nil. }
  split; [exact H|].
  exact (QueryDataFromDatabase_not_dispatched Store.Row_json
           (Store.QueryAllMeta sample_store) (Store.QueryMeta sample_store)
           Store.ParseResourceEdge (in_namespace "default") "widget" [] H).
Defined.

Lemma QueryDataFromDatabase_names_witness :
  query sample_store all_namespaces "service" ["web"; "service/b"] = OK [svc_b] ∧
  ∀ r, r ∈ [svc_b] →
       ∃ v, v ∈ ["web"; "service/b"] ∧ strings.Contains (Key r) v = true.
Proof.
  assert (H : query sample_store all_namespaces "service" ["web"; "service/b"]
              = OK [svc_b]) by (vm_compute; reflexivity).
  split; [exact H|].
  refine (QueryDataFromDatabase_names Store.Row_json
           (Store.QueryAllMeta sample_store) (Store.QueryMeta sample_store)
           Store.ParseResourceEdge all_namespaces "service" ["web"; "service/b"]
           _ H _).
  discriminate.
Defined.

(** ** Validation *)

Lemma IsAllowedFormat_formats oFormat :
  IsAllowedFormat oFormat = true →
  oFormat ∈ [OutputFormatYAML; OutputFormatJSON; OutputFormatWIDE].
Proof.
  unfold IsAllowedFormat, allowedFormats. cbn [existsb].
  rewrite orb_false_r, !orb_true_iff, !bool_decide_eq_true, !elem_of_cons. tauto.
Qed.

Lemma length_zero_empty (s : string) : (0 <? String.length s)%nat = false → s = "".
Proof. by destruct s. Qed.

Section ValidateFurther.

Variable IsFileExist : string → bool.
Variable InitDB : string → string → string → outcome ().

(** X14: options that pass validation are fit for [ExecuteGet]: there is a
    first argument and it is a key of the table, the database file exists,
    names come with no [all], and the output format, lower-cased by the
    validation, is empty or one of yaml, json and wide; the other options
    are as they were. *)
Theorem Validate_postcondition (g g' : GetOptions) (args : list string) :
  Validate IsFileExist InitDB g args = OK g' →
  ∃ rsT names,
    args = rsT :: names ∧
    IsAvailableResources rsT = true ∧
    IsFileExist (DataPath g) = true ∧
    (rsT = ResourceTypeAll → names = []) ∧
    g' = with_format g (strings.ToLower (OutputFormat (Flags g))) ∧
    OutputFormat (Flags g') ∈
      [""; OutputFormatYAML; OutputFormatJSON; OutputFormatWIDE].
Proof.
  unfold Validate. destruct args as [|rsT names]; [done|].
  destruct (IsAvailableResources rsT) eqn:Ha; cbn [negb]; [|done].
  destruct (IsFileExist (DataPath g)) eqn:Hf; cbn [negb]; [|done].
  destruct (InitDB _ _ _) as [[]| |]; cbn [mbind outcome_bind]; [|done..].
  intros H. exists rsT, names. split; [done|]. split; [done|]. split; [done|].
  destruct (0 <? String.length (OutputFormat (Flags g)))%nat eqn:Hlen.
  - destruct (IsAllowedFormat (strings.ToLower (OutputFormat (Flags g)))) eqn:Hfmt;
      cbn [negb mbind outcome_bind] in H; [|done].
    case_match eqn:Hall; [done|]. injection H as <-.
    split; [|split; [done|]].
    + intros ->. rewrite bool_decide_eq_true_2 in Hall by done.
      cbn [andb] in Hall. destruct names; [done|]. done.
    + cbn. apply list_elem_of_further. by apply IsAllowedFormat_formats.
  - cbn [mbind outcome_bind] in H.
    case_match eqn:Hall; [done|]. injection H as <-.
    apply length_zero_empty in Hlen.
    split; [|split].
    + intros ->. rewrite bool_decide_eq_true_2 in Hall by done.
      cbn [andb] in Hall. destruct names; [done|]. done.
    + unfold with_format. rewrite Hlen. by destruct g as [? ? ? ? []]; cbn in *; subst.
    + rewrite Hlen. apply list_elem_of_here.
Qed.

(** X15: an argument that is not a key of the table is refused as an
    unrecognized resource type before the file system and the database are
    looked at: the answer is the same whether or not the file exists and the
    database opens. *)
Theorem Validate_unrecognized (g : GetOptions) (rsT : string) (names : list string) :
  rsT ∉ resource_names →
  Validate IsFileExist InitDB g (rsT :: names) = Err (ErrUnrecognizedResourceType rsT).
Proof.
  intros H. apply Validate_outside_table.
  apply not_true_is_false. by rewrite IsAvailableResources_keys.
Qed.

End ValidateFurther.





Lemma Validate_postcondition_witness :
  Validate (λ _, true) (λ _ _ _, OK ()) (with_format NewGetOptions "JSON")
    ["pod"; "web"] = OK (with_format NewGetOptions "json") ∧
  ∃ rsT names,
    ["pod"; "web"] = rsT :: names ∧
    IsAvailableResources rsT = true ∧
    (λ _ : string, true) (DataPath (with_format NewGetOptions "JSON")) = true ∧
    (rsT = ResourceTypeAll → names = []) ∧
    with_format NewGetOptions "json" =
      with_format (with_format NewGetOptions "JSON")
        (strings.ToLower (OutputFormat (Flags (with_format NewGetOptions "JSON")))) ∧
    OutputFormat (Flags (with_format NewGetOptions "json")) ∈
      [""; OutputFormatYAML; OutputFormatJSON; OutputFormatWIDE].
Proof.
  split; [reflexivity|].
  exact (Validate_postcondition (λ _, true) (λ _ _ _, OK ())
           (with_format NewGetOptions "JSON") (with_format NewGetOptions "json")
           ["pod"; "web"] eq_refl).
Defined.

Lemma Validate_unrecognized_witness :
  ("node" ∉ resource_names) ∧
  Validate (λ _, true) (λ _ _ _, OK ()) NewGetOptions ["node"] =
    Err (ErrUnrecognizedResourceType "node").
Proof.
  assert (H : "node" ∉ resource_names).
  { unfold resource_names. rewrite !not_elem_of_cons.
    repeat split; try discriminate. apply not_elem_of_nil. }
  split; [exact H|].
  exact (Validate_unrecognized (λ _, true) (λ _ _ _, OK ()) NewGetOptions
           "node" [] H).
Defined.

(** ** Typed reconstruction *)

Lemma count_type_cons t v rest :
  count_type t (v :: rest) =
  (if bool_decide (Type_ v = t) then S (count_type t rest) else count_type t rest).
Proof.
  unfold count_type. case_bool_decide.
  - by rewrite filter_cons_True.
  - by rewrite filter_cons_False.
Qed.

Lemma count_type_total results :
  Forall (λ r, Type_ r ∈ kinds) results →
  count_type ResourceTypePod results + count_type ResourceTypeService results +
  count_type ResourceTypeSecret results + count_type ResourceTypeConfigmap results +
  count_type ResourceTypeEndpoints results = length results.
Proof.
  induction 1 as [|v rest Hv _ IH]; [done|].
  rewrite !count_type_cons. cbn [length].
  unfold kinds, ResourceTypePod, ResourceTypeService, ResourceTypeSecret,
    ResourceTypeConfigmap, ResourceTypeEndpoints in *.
  rewrite !elem_of_cons in Hv.
  destruct Hv as [Hv|[Hv|[Hv|[Hv|[Hv|Hv]]]]];
    [..|by apply elem_of_nil in Hv]; rewrite Hv;
    repeat first [rewrite bool_decide_eq_true_2 by done
                 |rewrite bool_decide_eq_false_2 by done]; lia.
Qed.

Section ReconstructionFurther.

Context {Typed : Type}.
Variable Unmarshal_field : package → field → json → outcome Typed.

Lemma parse_loop_invariant p results value (acc lists : Lists Typed) :
  parse_loop Unmarshal_field p results value acc = OK lists →
  Forall (λ r, Type_ r ∈ kinds) results ∧
  (length (podList lists) = length (podList acc) + count_type ResourceTypePod results ∧
   length (serviceList lists) = length (serviceList acc) + count_type ResourceTypeService results ∧
   length (secretList lists) = length (secretList acc) + count_type ResourceTypeSecret results ∧
   length (configMapList lists) = length (configMapList acc) + count_type ResourceTypeConfigmap results ∧
   length (endPointsList lists) = length (endPointsList acc) + count_type ResourceTypeEndpoints results) ∧
  (stamped acc → stamped lists).
Proof.
  revert value acc. induction results as [|v rest IH]; intros value acc H.
  { cbn in H. injection H as <-. split; [constructor|]. split; [|done].
    unfold count_type. cbn. lia. }
  cbn [parse_loop] in H. rewrite !count_type_cons.
  unfold stamped, kinds in *.
  unfold ResourceTypePod, ResourceTypeService, ResourceTypeSecret,
    ResourceTypeConfigmap, ResourceTypeEndpoints in *.
  repeat case_bool_decide; try discriminate H; try congruence.
  all: repeat match type of H with
           | (mbind _ ?x = OK _) =>
               destruct x; cbn [mbind outcome_bind] in H; [|discriminate H..]
           end.
  all: apply IH in H as (Hk & (L1 & L2 & L3 & L4 & L5) & Hs).
  all: cbn [podList serviceList secretList configMapList endPointsList] in *.
  all: rewrite ?length_app in *; cbn [length] in *.
  all: split; [constructor; [rewrite !elem_of_cons; tauto|done]|].
  all: split; [repeat split; lia|].
  all: intros (S1 & S2 & S3 & S4 & S5); apply Hs.
  all: rewrite ?Forall_app, ?Forall_singleton.
  all: cbn [pod_TypeMeta svc_TypeMeta secret_TypeMeta cm_TypeMeta ep_TypeMeta].
  all: repeat split; try done; congruence.
Qed.

(** X17: a reconstruction that returns has lost and repeated no record:
    each of the five lists has as many items as there are records of its
    type, and the five lists together as many as there are records. *)
Theorem reconstruction_counts (results : list Meta) (lists : Lists Typed) :
  ParseMetaToV1List Unmarshal_field results = OK lists ∨
  ParseMetaToAPIList Unmarshal_field results = OK lists →
  counted results lists ∧
  length (podList lists) + length (serviceList lists) + length (secretList lists) +
  length (configMapList lists) + length (endPointsList lists) = length results.
Proof.
  unfold ParseMetaToV1List, ParseMetaToAPIList.
  intros H.
  assert (Hinv : ∃ p, parse_loop Unmarshal_field p results make_map empty_lists
                      = OK lists) by (destruct H; eauto).
  clear H. destruct Hinv as [p H].
  apply parse_loop_invariant in H as (Hk & (L1 & L2 & L3 & L4 & L5) & _).
  cbn in L1, L2, L3, L4, L5. split; [by repeat split|].
  rewrite L1, L2, L3, L4, L5. by apply count_type_total.
Qed.

(** X18: every item of a reconstruction that returns carries the version
    [v1] and, as its kind, the type of its record, whatever the document
    says about its own version and kind. *)
Theorem reconstruction_stamped (results : list Meta) (lists : Lists Typed) :
  ParseMetaToV1List Unmarshal_field results = OK lists ∨
  ParseMetaToAPIList Unmarshal_field results = OK lists →
  stamped lists.
Proof.
  unfold ParseMetaToV1List, ParseMetaToAPIList. intros [H|H];
    apply parse_loop_invariant in H as (_ & _ & Hs); apply Hs;
    by repeat split.
Qed.

(** X19: a record of a type other than pod, service, secret, configmap and
    endpoints, at any place of the list, keeps both passes from returning
    lists: the records before it are not given back on their own. *)
Theorem reconstruction_all_or_nothing (results : list Meta) :
  Exists (λ r, Type_ r ∉ kinds) results →
  ∀ lists,
    ParseMetaToV1List Unmarshal_field results ≠ OK lists ∧
    ParseMetaToAPIList Unmarshal_field results ≠ OK lists.
Proof.
  unfold ParseMetaToV1List, ParseMetaToAPIList. intros Hex lists.
  apply Exists_exists in Hex as (r & Hr & Hk).
  split; intros H; apply parse_loop_invariant in H as (Hf & _);
    rewrite Forall_forall in Hf; by apply Hk, Hf.
Qed.

Lemma index_after_store members (g : gmap string json) k :
  is_Some (object_map members !! k) →
  index (Some (store_members members g)) k =
  default JNull (object_map members !! k).
Proof.
  intros [x Hx]. unfold index. by rewrite store_members_lookup, Hx.
Qed.

Lemma append_lists_assoc (a b c : Lists Typed) :
  append_lists a (append_lists b c) = append_lists (append_lists a b) c.
Proof. unfold append_lists. cbn. by rewrite !app_assoc. Qed.

Lemma append_lists_empty (a : Lists Typed) : append_lists empty_lists a = a.
Proof. by destruct a. Qed.

Lemma parse_loop_complete p results value (acc : Lists Typed) :
  Forall complete results →
  parse_loop Unmarshal_field p results value acc =
  (lists ← parse_loop Unmarshal_field p results make_map empty_lists;
   OK (append_lists acc lists)).
Proof.
  intros Hc. revert value acc.
  induction Hc as [|v rest Hv _ IH]; intros value acc.
  { cbn. unfold append_lists. cbn. rewrite !app_nil_r. by destruct acc. }
  cbn [parse_loop]. unfold complete, sections in Hv.
  repeat case_bool_decide; [..|reflexivity].
  all: destruct (Value v) as [s|[| | | | |members]];
    cbn [Unmarshal_map mbind outcome_bind]; try reflexivity.
  all: try (rewrite !Forall_cons in Hv; rewrite !index_after_store by tauto).
  all: repeat match goal with
         | |- context [mbind _ (Unmarshal_field ?a ?b ?c)] =>
             destruct (Unmarshal_field a b c);
             cbn [mbind outcome_bind]; [|reflexivity..]
         end.
  all: rewrite IH; symmetry; rewrite IH; symmetry.
  all: destruct (parse_loop Unmarshal_field p rest make_map empty_lists);
    cbn [mbind outcome_bind]; [|reflexivity..].
  all: f_equal; unfold append_lists;
    cbn [podList serviceList secretList configMapList endPointsList empty_lists app];
    by rewrite <- ?app_assoc.
Qed.

(** X20: in front of records that have every section their case reads,
    reconstruction is record by record: the lists of a record followed by
    such records are the lists of the record alone followed by the lists of
    the others, and an error of either is the error of the whole. *)
Theorem reconstruction_record_wise (r : Meta) (rest : list Meta) :
  Forall complete rest →
  ParseMetaToV1List Unmarshal_field (r :: rest) =
    (first ← ParseMetaToV1List Unmarshal_field [r];
     others ← ParseMetaToV1List Unmarshal_field rest;
     OK (append_lists first others)) ∧
  ParseMetaToAPIList Unmarshal_field (r :: rest) =
    (first ← ParseMetaToAPIList Unmarshal_field [r];
     others ← ParseMetaToAPIList Unmarshal_field rest;
     OK (append_lists first others)).
Proof.
  intros Hrest.
  assert (Hstep : ∀ p,
    parse_loop Unmarshal_field p (r :: rest) make_map empty_lists =
    (first ← parse_loop Unmarshal_field p [r] make_map empty_lists;
     others ← parse_loop Unmarshal_field p rest make_map empty_lists;
     OK (append_lists first others))).
  { intros p. cbn [parse_loop].
    repeat case_bool_decide; [..|reflexivity].
    all: destruct (Unmarshal_map (Value r) make_map) as [value'| |];
      cbn [mbind outcome_bind]; [|reflexivity..].
    all: repeat match goal with
           | |- context [mbind _ (Unmarshal_field ?a ?b ?c)] =>
               destruct (Unmarshal_field a b c);
               cbn [mbind outcome_bind]; [|reflexivity..]
           end.
    all: by rewrite (parse_loop_complete p rest value' _ Hrest). }
  unfold ParseMetaToV1List, ParseMetaToAPIList. split; apply Hstep.
Qed.

End ReconstructionFurther.

Lemma reconstruction_counts_witness :
  ∃ lists,
    ParseMetaToV1List Store.Unmarshal_field [pod_full; svc_a; pod_web] = OK lists ∧
    counted [pod_full; svc_a; pod_web] lists ∧
    length (podList lists) + length (serviceList lists) + length (secretList lists) +
    length (configMapList lists) + length (endPointsList lists) = 3.
Proof.
  eexists. split; [vm_compute; reflexivity|].
  apply (reconstruction_counts Store.Unmarshal_field [pod_full; svc_a; pod_web]).
  left. vm_compute. reflexivity.
Defined.

Lemma reconstruction_stamped_witness :
  ∃ lists,
    ParseMetaToAPIList Store.Unmarshal_field [pod_full; svc_a; pod_web] = OK lists ∧
    stamped lists.
Proof.
  eexists. split; [vm_compute; reflexivity|].
  apply (reconstruction_stamped Store.Unmarshal_field [pod_full; svc_a; pod_web]).
  right. vm_compute. reflexivity.
Defined.

Lemma reconstruction_all_or_nothing_witness :
  Exists (λ r, Type_ r ∉ kinds) [pod_web; svc_a; node_edge] ∧
  ∀ lists,
    ParseMetaToV1List Store.Unmarshal_field [pod_web; svc_a; node_edge] ≠ OK lists ∧
    ParseMetaToAPIList Store.Unmarshal_field [pod_web; svc_a; node_edge] ≠ OK lists.
Proof.
  assert (H : Exists (λ r, Type_ r ∉ kinds) [pod_web; svc_a; node_edge]).
  { do 2 apply Exists_cons_tl. apply Exists_cons_hd.
    unfold kinds. rewrite !not_elem_of_cons.
    repeat split; try discriminate. apply not_elem_of_nil. }
  split; [exact H|].
  exact (reconstruction_all_or_nothing Store.Unmarshal_field
           [pod_web; svc_a; node_edge] H).
Defined.

Lemma reconstruction_record_wise_witness :
  Forall complete [pod_full; svc_full] ∧
  ParseMetaToV1List Store.Unmarshal_field [pod_web; pod_full; svc_full] =
    (first ← ParseMetaToV1List Store.Unmarshal_field [pod_web];
     others ← ParseMetaToV1List Store.Unmarshal_field [pod_full; svc_full];
     OK (append_lists first others)).
Proof.
  assert (H : Forall complete [pod_full; svc_full]).
  { repeat (apply Forall_cons; split); try apply Forall_nil;
      unfold complete; cbn;
      repeat (apply Forall_cons; split); try apply Forall_nil;
      vm_compute; eauto. }
  split; [exact H|].
  exact (proj1 (reconstruction_record_wise Store.Unmarshal_field
                  pod_web [pod_full; svc_full] H)).
Defined.

(** ** Printing *)

Section PrintingFurther.

Context {Typed Table : Type}.
Variable Unmarshal_field : package → field → json → outcome Typed.
Variable ConvertDataToTable : ListObject Typed → outcome Table.

(** X21: when at most one kind has two items or more, the structured path
    prints, kind after kind in the order pod, service, secret, configmap,
    endpoints, nothing for a kind without items, the item itself for a
    kind with one, and for the kind with more a list of kind [List] and
    version [v1] that holds exactly its items. *)
Theorem JSONYamlPrint_by_kind (results : list Meta) (lists : Lists Typed) :
  ParseMetaToV1List Unmarshal_field results = OK lists →
  (kinds_with_several lists ≤ 1)%nat →
  JSONYamlPrint Unmarshal_field results = OK (print_by_kind lists).
Proof.
  intros Hp Hs. unfold JSONYamlPrint. rewrite Hp. cbn [mbind outcome_bind].
  f_equal. unfold kinds_with_several, several in Hs.
  destruct lists as [pods svcs secrets cms eps].
  cbn [podList serviceList secretList configMapList endPointsList] in *.
  unfold print_by_kind.
  cbn [podList serviceList secretList configMapList endPointsList].
  destruct pods as [|? [|? ?]]; destruct svcs as [|? [|? ?]];
    destruct secrets as [|? [|? ?]]; destruct cms as [|? [|? ?]];
    destruct eps as [|? [|? ?]];
    cbn [length Nat.leb] in Hs; try lia; reflexivity.
Qed.

Lemma print_tables_success objs out0 out :
  print_tables ConvertDataToTable objs out0 = (out, OK ()) →
  ∃ tables,
    Forall2 (λ obj talbe, ConvertDataToTable obj = OK talbe)
      (filter (λ obj, list_length obj ≠ 0) objs) tables ∧
    out = out0 ++ (tables ≫= λ talbe, [TablePrinted talbe; BlankLine]).
Proof.
  revert out0. induction objs as [|obj rest IH]; intros out0 H;
    cbn [print_tables] in H.
  { injection H as <-. exists []. split; [constructor|]. cbn. by rewrite app_nil_r. }
  destruct (list_length obj =? 0)%nat eqn:Hlen.
  - apply Nat.eqb_eq in Hlen. rewrite filter_cons_False by (intros ?; done).
    by apply IH.
  - apply Nat.eqb_neq in Hlen. rewrite filter_cons_True by done.
    destruct (ConvertDataToTable obj) as [talbe| |] eqn:Hc; [|done..].
    apply IH in H as (tables & Hf & ->).
    exists (talbe :: tables). split; [by constructor|].
    cbn. by rewrite <- app_assoc.
Qed.

(** X22: when the table path succeeds, what it has written is, for every
    kind with items and in the order pod, service, secret, configmap,
    endpoints, the table converted from the whole list of that kind
    followed by a blank line; a kind without items leaves no trace. *)
Theorem HumanReadablePrint_tables
    (results : list Meta) (out : list (Written Typed Table)) :
  HumanReadablePrint Unmarshal_field ConvertDataToTable results = (out, OK ()) →
  ∃ lists tables,
    ParseMetaToAPIList Unmarshal_field results = OK lists ∧
    Forall2 (λ obj talbe, ConvertDataToTable obj = OK talbe)
      (table_objects lists) tables ∧
    out = tables ≫= λ talbe, [TablePrinted talbe; BlankLine].
Proof.
  unfold HumanReadablePrint. intros H.
  destruct (ParseMetaToAPIList Unmarshal_field results) as [lists| |]; [|done..].
  apply print_tables_success in H as (tables & Hf & ->).
  by exists lists, tables.
Qed.

End PrintingFurther.

Lemma JSONYamlPrint_by_kind_witness :
  ∃ lists,
    ParseMetaToV1List Store.Unmarshal_field [svc_a; pod_full; pod_web] = OK lists ∧
    (kinds_with_several lists ≤ 1)%nat ∧
    JSONYamlPrint Store.Unmarshal_field [svc_a; pod_full; pod_web] =
      OK (print_by_kind lists).
Proof.
  eexists. split; [vm_compute; reflexivity|]. split; [vm_compute; lia|].
  apply (JSONYamlPrint_by_kind Store.Unmarshal_field [svc_a; pod_full; pod_web]).
  - vm_compute. reflexivity.
  - vm_compute. lia.
Defined.

Lemma HumanReadablePrint_tables_witness :
  HumanReadablePrint Store.Unmarshal_field row_count [svc_a; pod_full; pod_web] =
    ([TablePrinted 2; BlankLine; TablePrinted 1; BlankLine], OK ()) ∧
  ∃ lists tables,
    ParseMetaToAPIList Store.Unmarshal_field [svc_a; pod_full; pod_web] = OK lists ∧
    Forall2 (λ obj talbe, row_count obj = OK talbe) (table_objects lists) tables ∧
    [TablePrinted 2; BlankLine; TablePrinted 1; BlankLine] =
      tables ≫= λ talbe, [@TablePrinted json nat talbe; BlankLine].
Proof.
  assert (H : HumanReadablePrint Store.Unmarshal_field row_count
                [svc_a; pod_full; pod_web] =
              ([TablePrinted 2; BlankLine; TablePrinted 1; BlankLine], OK ()))
    by (vm_compute; reflexivity).
  split; [exact H|].
  exact (HumanReadablePrint_tables Store.Unmarshal_field row_count
           [svc_a; pod_full; pod_web] _ H).
Defined.

(** ** [ExecuteGet] *)

Section ExecuteFurther.

Context {Row Typed Table : Type}.
Variable Row_json : Row → json.
Variable QueryAllMeta : string → string → outcome (list Meta).
Variable QueryMeta : string → string → outcome (list Row).
Variable ParseResourceEdge :
  string → string → string * string * string * option error.
Variable Unmarshal_field : package → field → json → outcome Typed.
Variable ConvertDataToTable : ListObject Typed → outcome Table.
Variable ToPrinter : PrintFlags → outcome ().





End ExecuteFurther.


(** ** The table path on a failed conversion *)

Section TableFailure.

Context {Typed Table : Type}.
Variable Unmarshal_field : package → field → json → outcome Typed.
Variable ConvertDataToTable : ListObject Typed → outcome Table.



End TableFailure.


(** ** The error exit *)



